(** * DESeq2 dashboard: data-transformation layer

    Shallow embedding of [utils.py] (file discovery, display names,
    loading with a process-wide cache, merging, DEG extraction) and of the
    set-overlap part of the Venn callback in [app.py].

    Modelling choices:
    - numbers read from a TSV are finite rationals, +inf, -inf or NaN
      ([fnum]); after loading, a numeric cell is [option Q] where [None] is
      pandas' missing value;
    - a DataFrame object lives in an object store ([heap]) addressed by
      [nat] locations, so that [df.copy()] (a fresh object) and aliasing
      are explicit; the cache maps a path string to the location of the
      cached DataFrame;
    - Python exceptions are the left side of a sum, and a computation that
      raises keeps the side effects it performed before raising. *)

From Stdlib Require Import QArith Qabs Lqa String Ascii Sorting.Sorted.
From stdpp Require Import base gmap sets strings list.

(* ------------------------------------------------------------------ *)
(** ** Tables *)

(** One cell of a numeric column as parsed by [pd.read_csv]. *)
Inductive fnum :=
| Fin (q : Q)
| PosInf
| NegInf
| NaN.

(** One parsed row. [raw_gene] is [None] when the gene_symbol cell is
    empty / NA; otherwise it is the text [str()] gives for the cell. *)
Record RawRow := {
  raw_gene : option string;
  raw_lfc : fnum;
  raw_pvalue : fnum;
  raw_padj : fnum
}.

(** A TSV file on disk: its header and its rows. *)
Record RawFile := {
  header : list string;
  raw_rows : list RawRow
}.

(** What an existing path holds: a TSV file that [pd.read_csv] parses
    into a header and rows, or something it cannot read although
    [os.path.exists] holds (a directory, a file without read permission,
    an empty or malformed TSV). *)
Inductive FsEntry :=
| Regular (f : RawFile)
| Unreadable.

(** One row of a loaded DataFrame. *)
Record Row := {
  gene_symbol : string;
  log2FoldChange : option Q;
  pvalue : option Q;
  padj : option Q
}.

(** A loaded DataFrame: which of the optional significance columns exist,
    and its rows. *)
Record Table := {
  has_pvalue : bool;
  has_padj : bool;
  rows : list Row
}.

Definition empty_table : Table :=
  {| has_pvalue := false; has_padj := false; rows := [] |}.

Definition col_in (c : string) (cols : list string) : bool :=
  existsb (String.eqb c) cols.

(** [df[col].replace([inf, -inf], pd.NA)]: non-finite values become
    missing. *)
Definition sanitize_num (x : fnum) : option Q :=
  match x with
  | Fin q => Some q
  | _ => None
  end.

(** [df['gene_symbol'].astype(str)]: a missing cell becomes ['nan']. *)
Definition as_str (g : option string) : string :=
  match g with
  | Some s => s
  | None => "nan"
  end.

Definition sanitize_row (r : RawRow) : Row :=
  {| gene_symbol := as_str (raw_gene r);
     log2FoldChange := sanitize_num (raw_lfc r);
     pvalue := sanitize_num (raw_pvalue r);
     padj := sanitize_num (raw_padj r) |}.

(** The DataFrame built from a file once its columns have been
    validated. *)
Definition sanitize (f : RawFile) : Table :=
  {| has_pvalue := col_in "pvalue" (header f);
     has_padj := col_in "padj" (header f);
     rows := map sanitize_row (raw_rows f) |}.

(** [missing_cols = [col for col in required_cols if col not in df.columns]] *)
Definition required_cols : list string := ["gene_symbol"; "log2FoldChange"].

Definition missing_cols (hdr : list string) : list string :=
  filter (fun c => negb (col_in c hdr)) required_cols.

(* ------------------------------------------------------------------ *)
(** ** Process state and the exception-state monad *)

Inductive Err :=
| FileNotFoundError
| ReadError                      (** what [pd.read_csv] raises on an unreadable path *)
| ValueError (missing : list string)
| NameError
| TypeError.

Record St := {
  fs : gmap string FsEntry;    (** existing paths on disk *)
  heap : nat -> Table;         (** DataFrame objects *)
  next : nat;                  (** first unused location *)
  cache : gmap string nat      (** [_data_cache]: path -> DataFrame *)
}.

Definition M (A : Type) : Type := St -> (Err + A) * St.

Definition ret {A} (a : A) : M A := fun s => (inr a, s).
Definition raise {A} (e : Err) : M A := fun s => (inl e, s).
Definition bind {A B} (m : M A) (k : A -> M B) : M B :=
  fun s => match m s with
           | (inl e, s') => (inl e, s')
           | (inr a, s') => k a s'
           end.

Notation "x <- m ;; k" := (bind m (fun x => k))
  (at level 100, m at next level, right associativity).

Definition get : M St := fun s => (inr s, s).

(** A new DataFrame object holding [t]. *)
Definition alloc (t : Table) : M nat :=
  fun s => (inr (next s),
            {| fs := fs s;
               heap := fun l => if Nat.eqb l (next s) then t else heap s l;
               next := S (next s);
               cache := cache s |}).

(** Reading the object at a location. *)
Definition deref (l : nat) : M Table := fun s => (inr (heap s l), s).

(** [df.copy()] *)
Definition copy (l : nat) : M nat := t <- deref l ;; alloc t.

(** In-place mutation of a DataFrame by a caller (e.g. adding a derived
    column): the object at [l] now holds [t]. *)
Definition write (l : nat) (t : Table) (s : St) : St :=
  {| fs := fs s;
     heap := fun l' => if Nat.eqb l' l then t else heap s l';
     next := next s;
     cache := cache s |}.

Definition set_cache (p : string) (l : nat) : M unit :=
  fun s => (inr tt, {| fs := fs s; heap := heap s; next := next s;
                       cache := <[p := l]> (cache s) |}).

(** [clear_cache()] *)
Definition clear_cache : M unit :=
  fun s => (inr tt, {| fs := fs s; heap := heap s; next := next s;
                       cache := ∅ |}).

(* ------------------------------------------------------------------ *)
(** ** [load_deseq2_file] *)

Definition load_deseq2_file (file_path : string) (use_cache : bool) : M nat :=
  s <- get ;;
  match (if use_cache then cache s !! file_path else None) with
  | Some l => copy l
  | None =>
      match fs s !! file_path with
      | None => raise FileNotFoundError
      | Some Unreadable => raise ReadError
      | Some (Regular f) =>
          match missing_cols (header f) with
          | (_ :: _) as ms => raise (ValueError ms)
          | [] =>
              df <- alloc (sanitize f) ;;
              (if use_cache then
                 c <- copy df ;; _ <- set_cache file_path c ;; ret df
               else ret df)
          end
      end
  end.

(** The table a path's cache entry holds, if any. *)
Definition cached (s : St) (p : string) : option Table :=
  match cache s !! p with
  | Some l => Some (heap s l)
  | None => None
  end.

(* ------------------------------------------------------------------ *)
(** ** [merge_comparisons]: [pd.merge(df1, df2, on="gene_symbol", how="inner")] *)

(** An inner join pairs every left row with every right row of the same
    key, in the order of the left rows. *)
Definition pd_merge_inner (t1 t2 : Table) : list (Row * Row) :=
  flat_map (fun r1 =>
              map (fun r2 => (r1, r2))
                  (filter (fun r2 => String.eqb (gene_symbol r1) (gene_symbol r2))
                          (rows t2)))
           (rows t1).

Definition merge_comparisons (file_path1 file_path2 : string) : M (list (Row * Row)) :=
  l1 <- load_deseq2_file file_path1 true ;;
  l2 <- load_deseq2_file file_path2 true ;;
  df1 <- deref l1 ;;
  df2 <- deref l2 ;;
  ret (pd_merge_inner df1 df2).

(* ------------------------------------------------------------------ *)
(** ** [extract_degs] *)

(** [x < t] on a column where missing compares as false. *)
Definition lt_opt (x : option Q) (t : Q) : bool :=
  match x with
  | Some q => negb (Qle_bool t q)
  | None => false
  end.

Definition notna (x : option Q) : bool :=
  match x with Some _ => true | None => false end.

(** [abs(x) > t], false on a missing value. *)
Definition abs_gt_opt (x : option Q) (t : Q) : bool :=
  match x with
  | Some q => negb (Qle_bool (Qabs q) t)
  | None => false
  end.

Definition sig_mask (col : Row -> option Q) (padj_threshold lfc_threshold : Q)
  (r : Row) : bool :=
  lt_opt (col r) padj_threshold && notna (col r) &&
  abs_gt_opt (log2FoldChange r) lfc_threshold && notna (log2FoldChange r).

Definition degs_list (df : Table) (padj_threshold lfc_threshold : Q) : list string :=
  if has_padj df then
    map gene_symbol (filter (sig_mask padj padj_threshold lfc_threshold) (rows df))
  else if has_pvalue df then
    map gene_symbol (filter (sig_mask pvalue padj_threshold lfc_threshold) (rows df))
  else [].

(** [set([str(g) for g in degs if pd.notna(g) and str(g) != 'nan'])];
    every [g] is already a string. *)
Definition degs_of_table (df : Table) (padj_threshold lfc_threshold : Q) : gset string :=
  list_to_set (filter (fun g => negb (String.eqb g "nan"))
                      (degs_list df padj_threshold lfc_threshold)).

Definition extract_degs (file_path : string) (padj_threshold lfc_threshold : Q)
  : M (gset string) :=
  l <- load_deseq2_file file_path true ;;
  df <- deref l ;;
  ret (degs_of_table df padj_threshold lfc_threshold).

(* ------------------------------------------------------------------ *)
(** ** Python string operations used by the display-name helpers *)

Local Open Scope string_scope.

(** [pat in s] *)
Definition str_contains (pat s : string) : bool :=
  match index 0 pat s with Some _ => true | None => false end.

(** [s.replace(pat, rep)] for a non-empty [pat]: occurrences are found
    left to right and do not overlap. [fuel] bounds the number of steps;
    [length s] steps always suffice. *)
Fixpoint str_replace_fuel (fuel : nat) (pat rep s : string) : string :=
  match fuel with
  | O => s
  | S fuel' =>
      match s with
      | EmptyString => EmptyString
      | String c s' =>
          if String.prefix pat s
          then rep ++ str_replace_fuel fuel' pat rep
                        (substring (String.length pat)
                                   (String.length s - String.length pat) s)
          else String c (str_replace_fuel fuel' pat rep s')
      end
  end.

Definition str_replace (pat rep s : string) : string :=
  str_replace_fuel (String.length s) pat rep s.

(** The text before and after the first occurrence of character [c]. *)
Fixpoint split_at_char (c : ascii) (s : string) : option (string * string) :=
  match s with
  | EmptyString => None
  | String x s' =>
      if Ascii.eqb x c then Some (EmptyString, s')
      else match split_at_char c s' with
           | Some (a, b) => Some (String x a, b)
           | None => None
           end
  end.

(** [s.split(c, 1)] *)
Definition split1 (c : ascii) (s : string) : list string :=
  match split_at_char c s with
  | Some (a, b) => [a; b]
  | None => [s]
  end.

Definition is_digit_char (c : ascii) : bool :=
  Nat.leb 48 (nat_of_ascii c) && Nat.leb (nat_of_ascii c) 57.

(** [s.isdigit()] on ASCII text: non-empty and all decimal digits. *)
Fixpoint all_digits (s : string) : bool :=
  match s with
  | EmptyString => true
  | String c s' => is_digit_char c && all_digits s'
  end.

Definition isdigit (s : string) : bool :=
  negb (String.eqb s "") && all_digits s.

(** [s[i:j]] for [0 <= i <= j]. *)
Definition slice (i j : nat) (s : string) : string := substring i (j - i) s.

(* ------------------------------------------------------------------ *)
(** ** [clean_display_name] (local to [discover_deseq2_files]) *)

(** On ASCII stems: [len], slices and [isdigit] below count and test
    bytes, which agrees with Python's code points only for ASCII text. *)

Definition clean_display_name (name0 : string) : string :=
  let name1 := if str_contains "_results" name0
               then str_replace "_results" "" name0 else name0 in
  let parts := split1 "_"%char name1 in
  let '(date_str, date_formatted, name2) :=
    match parts with
    | [p0; p1] =>
        if isdigit p0 && Nat.eqb (String.length p0) 8
        then (p0, slice 0 4 p0 ++ "-" ++ slice 4 6 p0 ++ "-" ++ slice 6 8 p0, p1)
        else ("", "", name1)
    | _ => ("", "", name1)
    end in
  let name3 := str_replace "_" " " (str_replace "_vs_" " vs " name2) in
  let name4 := if negb (String.eqb date_str "")
               then date_formatted ++ ": " ++ name3 else name3 in
  if Nat.ltb 55 (String.length name4)
  then slice 0 52 name4 ++ "..."
  else name4.

(* ------------------------------------------------------------------ *)
(** ** [get_file_display_name] *)

(** [os.path.basename]: the text after the last '/'. *)
Fixpoint basename (p : string) : string :=
  match p with
  | EmptyString => EmptyString
  | String c p' =>
      if str_contains "/" p' then basename p'
      else if Ascii.eqb c "/"%char then p' else p
  end.

(** Position of the last occurrence of [c]. *)
Fixpoint rfind_char (c : ascii) (s : string) : option nat :=
  match s with
  | EmptyString => None
  | String x s' =>
      match rfind_char c s' with
      | Some i => Some (S i)
      | None => if Ascii.eqb x c then Some 0 else None
      end
  end.

Fixpoint only_dots (s : string) : bool :=
  match s with
  | EmptyString => true
  | String x s' => Ascii.eqb x "."%char && only_dots s'
  end.

(** [os.path.splitext(filename)[0]] for a name without '/': the text
    before the last dot, unless only dots precede it. *)
Definition splitext_root (p : string) : string :=
  match rfind_char "."%char p with
  | Some d => if only_dots (substring 0 d p) then p else substring 0 d p
  | None => p
  end.

Definition get_file_display_name (file_path : string) : string :=
  let filename := basename file_path in
  let name := splitext_root filename in
  if str_contains "_results" name then
    match split1 "_"%char name with
    | [_; p1] => str_replace "_results" "" p1
    | _ => name
    end
  else name.

Local Close Scope string_scope.

(* ------------------------------------------------------------------ *)
(** ** Set overlaps of the Venn callback ([update_venn_diagram]) *)

(** [only1 = degs1 - degs2], [only2 = degs2 - degs1], [overlap = degs1 & degs2] *)
Record Overlap2 := {
  only_1 : gset string;
  only_2 : gset string;
  overlap : gset string
}.

Definition overlap2 (degs1 degs2 : gset string) : Overlap2 :=
  {| only_1 := degs1 ∖ degs2;
     only_2 := degs2 ∖ degs1;
     overlap := degs1 ∩ degs2 |}.

Record Overlap3 := {
  only_1' : gset string;
  only_2' : gset string;
  only_3' : gset string;
  overlap_12 : gset string;
  overlap_13 : gset string;
  overlap_23 : gset string;
  overlap_all : gset string
}.

Definition overlap3 (degs1 degs2 degs3 : gset string) : Overlap3 :=
  {| only_1' := degs1 ∖ degs2 ∖ degs3;
     only_2' := degs2 ∖ degs1 ∖ degs3;
     only_3' := degs3 ∖ degs1 ∖ degs2;
     overlap_12 := (degs1 ∩ degs2) ∖ degs3;
     overlap_13 := (degs1 ∩ degs3) ∖ degs2;
     overlap_23 := (degs2 ∩ degs3) ∖ degs1;
     overlap_all := degs1 ∩ degs2 ∩ degs3 |}.

(** What the callback hands back: a warning alert (input rejected), the
    error banner of its [except] clause, or the computed partition
    ([overlaps_data]) with its figure. *)
Inductive VennOut :=
| VennAlert (msg : string)
| VennError
| Venn2 (o : Overlap2)
| Venn3 (o : Overlap3).

(** Python truthiness of a dropdown value. *)
Definition truthy (v : option string) : bool :=
  match v with
  | Some p => negb (String.eqb p "")
  | None => false
  end.

Definition path_of (v : option string) : string :=
  match v with Some p => p | None => "" end.

(** [try: ... except Exception: ...] *)
Definition catch_all (m : M VennOut) : M VennOut :=
  fun s => match m s with
           | (inl _, s') => (inr VennError, s')
           | (inr o, s') => (inr o, s')
           end.

Definition update_venn_diagram (n_comparisons : Z) (file_path1 file_path2 : option string)
  (fdr_threshold lfc_threshold : option Q) (file_path3 : option string) : M VennOut :=
  if negb (truthy file_path1) || negb (truthy file_path2) then
    ret (VennAlert "Please select at least two comparisons")
  else if Z.eqb n_comparisons 3 && negb (truthy file_path3) then
    ret (VennAlert "Please select all three comparisons")
  else
    let p1 := path_of file_path1 in
    let p2 := path_of file_path2 in
    let p3 := path_of file_path3 in
    if Z.eqb n_comparisons 3 && negb (negb (String.eqb p1 p2) && negb (String.eqb p1 p3)
                                      && negb (String.eqb p2 p3)) then
      ret (VennAlert "Please select three different comparisons")
    else if negb (Z.eqb n_comparisons 3) && String.eqb p1 p2 then
      ret (VennAlert "Please select two different comparisons")
    else
      let fdr := match fdr_threshold with Some t => t | None => 0.05%Q end in
      let lfc := match lfc_threshold with Some t => t | None => 1%Q end in
      catch_all (
        degs1 <- extract_degs p1 fdr lfc ;;
        degs2 <- extract_degs p2 fdr lfc ;;
        (* [venn2]/[venn3] get the DEG sets as Python lists and take their
           differences ([a - b] on lists): TypeError, before [overlaps_data]
           is returned *)
        if Z.eqb n_comparisons 3 then
          degs3 <- extract_degs p3 fdr lfc ;;
          let _ := overlap3 degs1 degs2 degs3 in
          raise TypeError
        else if Z.eqb n_comparisons 2 then
          let _ := overlap2 degs1 degs2 in
          raise TypeError
        else
          (* the three-way branch reads the unbound [degs3]: NameError *)
          raise NameError).

(* ------------------------------------------------------------------ *)
(** ** [discover_deseq2_files] *)

(** A directory entry: its name and whether it is itself a directory. *)
Record Entry := {
  ename : string;
  eis_dir : bool
}.

(** Directories on disk, by path. *)
Abbreviation Disk := (gmap string (list Entry)).

Definition path_exists (d : Disk) (p : string) : bool :=
  match d !! p with Some _ => true | None => false end.

(** [get_deseq2_results_dir] with [current_dir] the dashboard directory
    and [project_root] its parent. *)
Definition get_deseq2_results_dir (d : Disk) (current_dir project_root : string) : string :=
  let data_dir := (current_dir ++ "/data/deseq2_results")%string in
  if path_exists d data_dir then data_dir
  else (project_root ++ "/analysis_results/deseq2_results")%string.

(** [fnmatch(name, "*.tsv")] *)
Definition glob_tsv (name : string) : bool :=
  Nat.leb 4 (String.length name) &&
  String.eqb (substring (String.length name - 4) 4 name) ".tsv".

Definition str_leb (a b : string) : bool :=
  match String.compare a b with Gt => false | _ => true end.

Fixpoint insert_sorted (x : string) (l : list string) : list string :=
  match l with
  | [] => [x]
  | y :: l' => if str_leb x y then x :: l else y :: insert_sorted x l'
  end.

(** [sorted(...)] on the paths of one directory: by name. *)
Fixpoint sort_names (l : list string) : list string :=
  match l with
  | [] => []
  | x :: l' => insert_sorted x (sort_names l')
  end.

(** [Path(name).stem] *)
Definition path_stem (name : string) : string :=
  match rfind_char "."%char name with
  | Some i => if Nat.ltb 0 i && Nat.ltb i (String.length name - 1)
              then substring 0 i name else name
  | None => name
  end.

(** One catalog entry: (file path, category, display name). *)
Abbreviation CatalogEntry := (string * string * string)%type.

(** The entries of one category directory. *)
Definition scan_dir (d : Disk) (dir category : string) : list CatalogEntry :=
  match d !! dir with
  | Some es =>
      map (fun n => ((dir ++ "/" ++ n)%string, category, clean_display_name (path_stem n)))
          (sort_names (filter glob_tsv (map ename es)))
  | None => []
  end.

Definition discover_deseq2_files (d : Disk) (current_dir project_root : string)
  : list CatalogEntry :=
  let results_dir := get_deseq2_results_dir d current_dir project_root in
  scan_dir d (results_dir ++ "/primary") "primary" ++
  scan_dir d (results_dir ++ "/secondary") "secondary".

(* ------------------------------------------------------------------ *)
(** ** Reference notions used in the statements *)

(** The significance column the DEG rule reads: the adjusted one when the
    table has it, else the raw one when present, else none. *)
Definition significance_column (df : Table) : option (Row -> option Q) :=
  if has_padj df then Some padj
  else if has_pvalue df then Some pvalue
  else None.

(** A process that has not loaded anything yet. *)
Definition init_st (files : gmap string RawFile) : St :=
  {| fs := Regular <$> files; heap := fun _ => empty_table; next := 0; cache := ∅ |}.

(** A result file in which one gene identifier occurs on two rows. *)
Definition dup_gene_file : RawFile :=
  {| header := ["gene_symbol"; "log2FoldChange"; "padj"];
     raw_rows := [ {| raw_gene := Some "X"; raw_lfc := Fin 2; raw_pvalue := NaN;
                      raw_padj := Fin (1 # 100) |};
                   {| raw_gene := Some "X"; raw_lfc := Fin (-3); raw_pvalue := NaN;
                      raw_padj := Fin (1 # 50) |} ] |}.

(** The DEG scenario of the design notes: X (padj 0.01, log2FC 2.0) and
    Y (padj 0.2, log2FC 3.0). *)
Definition xy_file : RawFile :=
  {| header := ["gene_symbol"; "log2FoldChange"; "padj"];
     raw_rows := [ {| raw_gene := Some "X"; raw_lfc := Fin 2; raw_pvalue := NaN;
                      raw_padj := Fin (1 # 100) |};
                   {| raw_gene := Some "Y"; raw_lfc := Fin 3; raw_pvalue := NaN;
                      raw_padj := Fin (2 # 10) |} ] |}.

(** Every cache entry points at an allocated DataFrame. *)
Definition cache_inv (s : St) : Prop :=
  ∀ p l, cache s !! p = Some l → l < next s.

(** The file at [p] is deleted from disk (by anyone). *)
Definition remove_file (p : string) (s : St) : St :=
  {| fs := delete p (fs s); heap := heap s; next := next s; cache := cache s |}.

(** A disk holding [xy_file] at "a.tsv". *)
Definition xy_disk : gmap string RawFile := {["a.tsv" := xy_file]}.

(** [cache_inv] as a check. *)
Definition cache_inv_b (s : St) : bool :=
  forallb (fun '(_, l) => Nat.ltb l (next s)) (map_to_list (cache s)).

(** A deployed layout whose primary directory holds a result file and a
    sub-directory whose name also ends in ".tsv". *)
Definition tsv_dir_disk : Disk :=
  <["/app/data/deseq2_results/primary" :=
      [ {| ename := "old.tsv"; eis_dir := true |};
        {| ename := "a_vs_b.tsv"; eis_dir := false |} ]]>
  {["/app/data/deseq2_results" := [ {| ename := "primary"; eis_dir := true |} ]]}.

(** *** The catalog display-name rule read from the spec *)

Local Open Scope string_scope.

(** Every underscore becomes a space. *)
Fixpoint underscores_to_spaces (s : string) : string :=
  match s with
  | EmptyString => EmptyString
  | String c s' =>
      String (if Ascii.eqb c "_"%char then " "%char else c) (underscores_to_spaces s')
  end.

(** A name that begins with eight digits followed by an underscore: the
    date reformatted as YYYY-MM-DD, and the text after the underscore. *)
Definition date_prefix (s : string) : option (string * string) :=
  match s with
  | String y1 (String y2 (String y3 (String y4 (String m1 (String m2
      (String d1 (String d2 (String u rest)))))))) =>
      if all_digits (String y1 (String y2 (String y3 (String y4 (String m1 (String m2
           (String d1 (String d2 EmptyString))))))))
         && Ascii.eqb u "_"%char
      then Some (String y1 (String y2 (String y3 (String y4
                 (String "-" (String m1 (String m2 (String "-" (String d1 (String d2
                 EmptyString)))))))))%char,
                 rest)
      else None
  | _ => None
  end.

(** The rule after the "_results" step: date prefix, underscores to
    spaces ("_vs_" to " vs " included), and truncation to 55 characters
    with an ellipsis. *)
Definition format_stripped (n : string) : string :=
  let body := match date_prefix n with
              | Some (date, rest) => date ++ ": " ++ underscores_to_spaces rest
              | None => underscores_to_spaces n
              end in
  if Nat.ltb 55 (String.length body) then substring 0 52 body ++ "..." else body.

(** The "_results" step as the claim words it: a trailing suffix only. *)
Definition strip_trailing_results (s : string) : string :=
  if Nat.leb 8 (String.length s)
     && String.eqb (substring (String.length s - 8) 8 s) "_results"
  then substring 0 (String.length s - 8) s
  else s.

Definition claimed_display_name (stem : string) : string :=
  format_stripped (strip_trailing_results stem).

(** The code's date format, [f"{d[:4]}-{d[4:6]}-{d[6:8]}"]. *)
Definition fmt_date (d : string) : string :=
  slice 0 4 d ++ "-" ++ slice 4 6 d ++ "-" ++ slice 6 8 d.

Local Close Scope string_scope.

(* ------------------------------------------------------------------ *)
(** ** Dropdown options built from the catalog ([app.py], module level) *)

Local Open Scope string_scope.

(** [{"label": label, "value": path}] *)
Record FileOption := {
  label : string;
  value : string
}.

(** One iteration of the [file_options] loop. *)
Definition file_option (e : CatalogEntry) : FileOption :=
  let '(path, cat, name) := e in
  let cat_abbrev := if String.eqb cat "primary" then "P" else "S" in
  let short_name := if Nat.leb (String.length name) 45 then name
                    else slice 0 42 name ++ "..." in
  {| label := "[" ++ cat_abbrev ++ "] " ++ short_name; value := path |}.

Definition file_options (entries : list CatalogEntry) : list FileOption :=
  map file_option entries.

(* ------------------------------------------------------------------ *)
(** ** Gene search ([volcano] and [scatter] callbacks) *)

(** [rows[rows['gene_symbol'].str.upper().str.contains(gene_search.upper(),
    na=False)]] when [gene_search] is truthy. [regex t] is the pattern
    [t.upper()] compiled by [re] as a test on a gene symbol (which is
    upper-cased before the search), or [None] when the pattern does not
    compile ([re.error] is raised). [key] reads the gene_symbol column. *)
Definition gene_search_rows {A} (regex : string -> option (string -> bool))
  (key : A -> string) (gene_search : option string) (rs : list A) : option (list A) :=
  if truthy gene_search then
    match regex (path_of gene_search) with
    | Some m => Some (filter (fun r => m (key r)) rs)
    | None => None
    end
  else Some rs.

(* ------------------------------------------------------------------ *)
(** ** [update_volcano_plot] and [export_volcano_data] *)

Inductive Direction :=
| NotSignificant
| UpRegulated
| DownRegulated.

(** A record of [df.to_dict('records')] after the callback's derived
    columns: the loaded row, [significant] and [direction]
    ([neg_log10_p] and [regulation_strength] are real-valued and not
    modelled). *)
Record VRow := {
  vrow : Row;
  significant : bool;
  direction : Direction
}.

(** [x > t], false on a missing value. *)
Definition gt_opt (x : option Q) (t : Q) : bool :=
  match x with
  | Some q => negb (Qle_bool q t)
  | None => false
  end.

(** The [significant] and [direction] columns of one row, given the
    p-value column [p_col] chosen by the callback. *)
Definition classify (p_col : option (Row -> option Q)) (fdr_threshold lfc_threshold : Q)
  (r : Row) : VRow :=
  match p_col with
  | Some c =>
      let sig := lt_opt (c r) fdr_threshold && abs_gt_opt (log2FoldChange r) lfc_threshold in
      {| vrow := r;
         significant := sig;
         direction := if sig && gt_opt (log2FoldChange r) 0 then UpRegulated
                      else if sig && lt_opt (log2FoldChange r) 0 then DownRegulated
                      else NotSignificant |}
  | None => {| vrow := r; significant := false; direction := NotSignificant |}
  end.

(** The callback's work on the loaded DataFrame: gene search, p-value
    column ([padj], else [pvalue], else none), classification, and the
    table [df[['gene_symbol', 'log2FoldChange', 'baseMean', 'pvalue',
    'padj']]], which raises [KeyError] unless all these columns exist.
    [None] is an exception. [has_baseMean] tells whether the file has a
    baseMean column, which [Table] does not record. *)
Definition volcano_rows (regex : string -> option (string -> bool))
  (gene_search : option string) (fdr_threshold lfc_threshold : Q)
  (has_baseMean : bool) (df : Table) : option (list VRow) :=
  rs ← gene_search_rows regex gene_symbol gene_search (rows df);
  let data := map (classify (significance_column df) fdr_threshold lfc_threshold) rs in
  if has_baseMean && has_pvalue df && has_padj df then Some data else None.

(** The volcano tab: a prompt when no file is selected, the error panel
    of the [except] clause, or the plot with the stored records. The
    label count and axis limits only shape the figure and are not
    modelled. *)
Inductive VolcanoOut :=
| VolcanoPrompt
| VolcanoError
| VolcanoPlot (data : list VRow).

(** A table cell that held +/-inf is missing here, as after the loader's
    [replace]; in pandas that [replace] also turns the column into an
    object column, on which [-np.log10] raises [TypeError]. So for a file
    with an infinite [padj] or [pvalue] the source shows the error panel
    where this model draws the plot. *)
Definition update_volcano_plot (regex : string -> option (string -> bool))
  (file_path : option string) (fdr_threshold lfc_threshold : Q)
  (gene_search : option string) (has_baseMean : bool) : M VolcanoOut :=
  if negb (truthy file_path) then ret VolcanoPrompt
  else fun s =>
    match (l <- load_deseq2_file (path_of file_path) true ;; deref l) s with
    | (inl _, s') => (inr VolcanoError, s')
    | (inr df, s') =>
        (inr (match volcano_rows regex gene_search fdr_threshold lfc_threshold
                                 has_baseMean df with
              | Some d => VolcanoPlot d
              | None => VolcanoError
              end), s')
    end.

(** The not-significant, up-regulated and down-regulated traces. *)
Definition volcano_traces (data : list VRow) : list VRow * list VRow * list VRow :=
  (filter (fun v => negb (significant v)) data,
   filter (fun v => significant v && gt_opt (log2FoldChange (vrow v)) 0) data,
   filter (fun v => significant v && lt_opt (log2FoldChange (vrow v)) 0) data).



(* ------------------------------------------------------------------ *)
(** ** [update_scatter_plot] and [export_scatter_data] *)

Inductive ScatterOut :=
| ScatterPrompt (msg : string)
| ScatterError
| ScatterPlot (data : list (Row * Row)).

(** The two DataFrames [merge_comparisons] joins. *)
Definition merge_frames (file_path1 file_path2 : string) : M (Table * Table) :=
  l1 <- load_deseq2_file file_path1 true ;;
  l2 <- load_deseq2_file file_path2 true ;;
  df1 <- deref l1 ;;
  df2 <- deref l2 ;;
  ret (df1, df2).

(** The callback's work on the merged DataFrame. The merge names the
    columns [padj_1] and [padj_2] only when both files have [padj].
    [n_labels > 0] raises [TypeError] on an empty label-count box
    ([None]). [sig_filter] is the checklist value ([None] as []). *)
Definition scatter_rows (regex : string -> option (string -> bool))
  (sig_filter : list string) (n_labels : option Z) (gene_search : option string)
  (df1 df2 : Table) : option (list (Row * Row)) :=
  let merged := pd_merge_inner df1 df2 in
  let merged1 :=
    if existsb (String.eqb "sig-only") sig_filter then
      if has_padj df1 && has_padj df2 then
        filter (fun rr => lt_opt (padj rr.1) 0.05%Q || lt_opt (padj rr.2) 0.05%Q) merged
      else merged
    else merged in
  merged2 ← gene_search_rows regex (fun rr => gene_symbol rr.1) gene_search merged1;
  match n_labels with
  | None => None
  | Some _ => Some merged2
  end.

Definition update_scatter_plot (regex : string -> option (string -> bool))
  (file_path1 file_path2 : option string) (sig_filter : list string)
  (n_labels : option Z) (gene_search : option string) : M ScatterOut :=
  if negb (truthy file_path1) || negb (truthy file_path2) then
    ret (ScatterPrompt "Please select both comparison files")
  else if String.eqb (path_of file_path1) (path_of file_path2) then
    ret (ScatterPrompt "Please select two different comparison files")
  else fun s =>
    match merge_frames (path_of file_path1) (path_of file_path2) s with
    | (inl _, s') => (inr ScatterError, s')
    | (inr (df1, df2), s') =>
        (inr (match scatter_rows regex sig_filter n_labels gene_search df1 df2 with
              | Some d => ScatterPlot d
              | None => ScatterError
              end), s')
    end.

(** [scatter-data-store] after the callback. *)
Definition scatter_store (o : ScatterOut) : option (list (Row * Row)) :=
  match o with
  | ScatterPlot d => Some d
  | _ => None
  end.

Definition export_scatter_data (data : option (list (Row * Row))) : option (list (Row * Row)) :=
  match data with
  | Some (_ :: _) => data
  | _ => None
  end.

(* ------------------------------------------------------------------ *)
(** ** [export_venn_overlaps] *)

(** [venn-data-store]: the [overlaps_data] object, a map from keys to
    gene lists. *)
Abbreviation OverlapsData := (gmap string (list string)).

(** The [venn-data-store] value for a callback output: [overlaps_data],
    whose lists are [list(s)] of each set (in some order), for a computed
    partition, and [None] otherwise. As written, [update_venn_diagram]
    fails in [venn2]/[venn3] before returning [overlaps_data], so it only
    ever stores [None]; [export_venn_overlaps] reads whatever the store
    holds. *)
Definition venn_store (o : VennOut) : option OverlapsData :=
  match o with
  | Venn2 o =>
      Some (<["only_1" := elements (only_1 o)]>
            (<["only_2" := elements (only_2 o)]>
             {["overlap" := elements (overlap o)]}))
  | Venn3 o =>
      Some (<["only_1" := elements (only_1' o)]>
            (<["only_2" := elements (only_2' o)]>
             (<["only_3" := elements (only_3' o)]>
              (<["overlap_12" := elements (overlap_12 o)]>
               (<["overlap_13" := elements (overlap_13 o)]>
                (<["overlap_23" := elements (overlap_23 o)]>
                 {["overlap_all" := elements (overlap_all o)]}))))))
  | _ => None
  end.

(** [', '.join(xs)] *)
Fixpoint join_comma (xs : list string) : string :=
  match xs with
  | [] => ""
  | [x] => x
  | x :: xs' => x ++ ", " ++ join_comma xs'
  end.

(** One record of [export_data]. *)
Record ExportRow := {
  Category : string;
  Gene_Count : nat;
  Genes : string
}.

Definition export_row (category : string) (genes : list string) : ExportRow :=
  {| Category := category;
     Gene_Count := length genes;
     Genes := join_comma (sort_names genes) |}.

(** [get_file_display_name] of a dropdown value; [os.path.basename(None)]
    raises [TypeError]. *)
Definition display_name_of (v : option string) : option string :=
  match v with
  | Some p => Some (get_file_display_name p)
  | None => None
  end.

(** The callback: [None] when there is nothing stored or when the body
    raises (a missing key, a missing dropdown value) and the [except]
    clause returns [None]; otherwise the rows sent as CSV. *)
Definition export_venn_overlaps (overlaps_data : option OverlapsData) (n_comparisons : Z)
  (file_path1 file_path2 file_path3 : option string) : option (list ExportRow) :=
  match overlaps_data with
  | None => None
  | Some d =>
      if bool_decide (d = ∅) then None
      else if Z.eqb n_comparisons 2 then
        n0 ← display_name_of file_path1;
        n1 ← display_name_of file_path2;
        o1 ← d !! "only_1";
        ov ← d !! "overlap";
        o2 ← d !! "only_2";
        Some [export_row ("Only " ++ n0) o1;
              export_row ("Overlap (" ++ n0 ++ " & " ++ n1 ++ ")") ov;
              export_row ("Only " ++ n1) o2]
      else
        n0 ← display_name_of file_path1;
        n1 ← display_name_of file_path2;
        n2 ← display_name_of file_path3;
        o1 ← d !! "only_1";
        o2 ← d !! "only_2";
        o3 ← d !! "only_3";
        o12 ← d !! "overlap_12";
        o13 ← d !! "overlap_13";
        o23 ← d !! "overlap_23";
        oall ← d !! "overlap_all";
        Some [export_row ("Only " ++ n0) o1;
              export_row ("Only " ++ n1) o2;
              export_row ("Only " ++ n2) o3;
              export_row ("Overlap " ++ n0 ++ " & " ++ n1) o12;
              export_row ("Overlap " ++ n0 ++ " & " ++ n2) o13;
              export_row ("Overlap " ++ n1 ++ " & " ++ n2) o23;
              export_row "Overlap All Three" oall]
  end.

(* ------------------------------------------------------------------ *)
(** ** Further reference inputs *)

(** A result file with all the columns the volcano table reads. *)
Definition volcano_file : RawFile :=
  {| header := ["gene_symbol"; "baseMean"; "log2FoldChange"; "pvalue"; "padj"];
     raw_rows := [ {| raw_gene := Some "X"; raw_lfc := Fin 2; raw_pvalue := Fin (1 # 1000);
                      raw_padj := Fin (1 # 100) |};
                   {| raw_gene := Some "Y"; raw_lfc := Fin (-3); raw_pvalue := Fin (1 # 1000);
                      raw_padj := Fin (2 # 100) |};
                   {| raw_gene := Some "Z"; raw_lfc := Fin (1 # 2); raw_pvalue := Fin (1 # 10);
                      raw_padj := Fin (1 # 2) |} ] |}.

Definition volcano_disk : gmap string RawFile :=
  <["v.tsv" := volcano_file]> {["a.tsv" := xy_file]}.

(** A search pattern that compiles and matches nothing. *)
Definition match_nothing : string -> option (string -> bool) :=
  fun _ => Some (fun _ => false).

Local Close Scope string_scope.

(* ================================================================== *)
(** * Properties *)

(* ------------------------------------------------------------------ *)
(** ** Set overlaps *)

(** Extensionality for set-algebra equalities over at most three sets:
    membership in each is decidable, so a case split closes them. *)
Ltac gset_ext3 A B C :=
  apply set_eq; intros ?x;
  rewrite ?union_empty_r_L, ?elem_of_union, ?elem_of_difference, ?elem_of_intersection;
  destruct (decide (x ∈ A)), (decide (x ∈ B)), (decide (x ∈ C)); tauto.

(** C4: the two-way overlap is [A-B], [B-A], [A∩B]; the three parts are
    pairwise disjoint with union [A∪B]. The three-way overlap has seven
    pairwise disjoint parts with union [A∪B∪C], and its triple part is
    exactly [A∩B∩C]. *)
Theorem overlap_partitions (A B C : gset string) :
  (let o := overlap2 A B in
   only_1 o = A ∖ B ∧ only_2 o = B ∖ A ∧ overlap o = A ∩ B ∧
   only_1 o ## only_2 o ∧ only_1 o ## overlap o ∧ only_2 o ## overlap o ∧
   only_1 o ∪ only_2 o ∪ overlap o = A ∪ B) ∧
  (let o := overlap3 A B C in
   let parts := [only_1' o; only_2' o; only_3' o; overlap_12 o; overlap_13 o;
                 overlap_23 o; overlap_all o] in
   (∀ i j X Y, i ≠ j → parts !! i = Some X → parts !! j = Some Y → X ## Y) ∧
   ⋃ parts = A ∪ B ∪ C ∧
   overlap_all o = A ∩ B ∩ C).
Proof.
  unfold overlap2, overlap3; cbn. split.
  - do 6 (split; [first [reflexivity | set_solver]|]). gset_ext3 A B C.
  - split; [|split].
    + intros i j X Y Hij HX HY.
      destruct i as [|[|[|[|[|[|[|i]]]]]]]; simpl in HX; try discriminate;
      injection HX as <-;
      destruct j as [|[|[|[|[|[|[|j]]]]]]]; simpl in HY; try discriminate;
      injection HY as <-; first [lia | set_solver].
    + gset_ext3 A B C.
    + reflexivity.
Qed.

(* ------------------------------------------------------------------ *)
(** ** Input validation of the Venn callback *)

(** C7: with 2 or 3 comparisons chosen (the only values the selector
    offers; there are three dropdowns, so more than three selections
    cannot be supplied), the callback answers with a warning, computes no
    partition and loads nothing (the state is unchanged) whenever fewer
    than two of the used dropdowns hold a selection or two of the
    supplied selections are the same file. *)
Theorem venn_rejects_invalid_selection (n : Z) (fp1 fp2 fp3 : option string)
  (fdr lfc : option Q) (s : St) :
  (n = 2 ∨ n = 3)%Z →
  let supplied := filter (fun v => truthy v = true) (take (Z.to_nat n) [fp1; fp2; fp3]) in
  (length supplied < 2 ∨ ¬ NoDup supplied) →
  ∃ msg, update_venn_diagram n fp1 fp2 fdr lfc fp3 s = (inr (VennAlert msg), s).
Proof.
  intros Hn supplied Hbad. subst supplied.
  unfold update_venn_diagram.
  destruct Hn as [-> | ->]; simpl in *.
  - destruct (truthy fp1) eqn:T1, (truthy fp2) eqn:T2; simpl in *; try (eexists; reflexivity).
    destruct (String.eqb (path_of fp1) (path_of fp2)) eqn:E; simpl; [eexists; reflexivity|].
    exfalso. rewrite filter_cons_True in Hbad by done.
    rewrite filter_cons_True in Hbad by done. simpl in Hbad.
    destruct Hbad as [Hl | Hnd]; [lia|]. apply Hnd.
    constructor; [|constructor; [set_solver | constructor]].
    rewrite list_elem_of_singleton. intros Heq.
    rewrite Heq, String.eqb_refl in E. discriminate.
  - destruct (truthy fp1) eqn:T1, (truthy fp2) eqn:T2, (truthy fp3) eqn:T3;
      simpl in *; try (eexists; reflexivity).
    destruct (String.eqb (path_of fp1) (path_of fp2)) eqn:E12,
             (String.eqb (path_of fp1) (path_of fp3)) eqn:E13,
             (String.eqb (path_of fp2) (path_of fp3)) eqn:E23;
      simpl; try (eexists; reflexivity).
    exfalso.
    rewrite !filter_cons_True in Hbad by done. simpl in Hbad.
    destruct Hbad as [Hl | Hnd]; [lia|]. apply Hnd.
    assert (Hne : ∀ a b, String.eqb (path_of a) (path_of b) = false → a ≠ b).
    { intros a b Hab ->. rewrite String.eqb_refl in Hab. discriminate. }
    apply NoDup_cons; split.
    + rewrite elem_of_cons, list_elem_of_singleton.
      intros [H | H]; [exact (Hne _ _ E12 H) | exact (Hne _ _ E13 H)].
    + apply NoDup_cons; split.
      * rewrite list_elem_of_singleton. exact (Hne _ _ E23).
      * apply NoDup_singleton.
Qed.

Lemma venn_rejects_invalid_selection_witness :
  (2 = 2 ∨ 2 = 3)%Z ∧
  ∃ msg, update_venn_diagram 2 (Some "a.tsv"%string) (Some "a.tsv"%string) None None None
           (init_st ∅) = (inr (VennAlert msg), init_st ∅).
Proof.
  split; [left; reflexivity|].
  apply (venn_rejects_invalid_selection 2 (Some "a.tsv"%string) (Some "a.tsv"%string) None
           None None (init_st ∅)).
  - left; reflexivity.
  - right. apply (bool_decide_unpack _). vm_compute. reflexivity.
Defined.

(* ------------------------------------------------------------------ *)
(** ** DEG extraction *)

Lemma Qlt_bool_spec (t q : Q) : negb (Qle_bool t q) = true ↔ (q < t)%Q.
Proof.
  rewrite negb_true_iff. split.
  - intros H. apply Qnot_le_lt. intros Hle. apply Qle_bool_iff in Hle. congruence.
  - intros H. destruct (Qle_bool t q) eqn:E; [|reflexivity].
    apply Qle_bool_iff in E. exfalso. apply (Qlt_not_le q t); assumption.
Qed.

Lemma sig_mask_spec (col : Row -> option Q) (a l : Q) (r : Row) :
  sig_mask col a l r = true ↔
  (∃ q, col r = Some q ∧ (q < a)%Q) ∧
  (∃ f, log2FoldChange r = Some f ∧ (l < Qabs f)%Q).
Proof.
  unfold sig_mask, lt_opt, notna, abs_gt_opt.
  destruct (col r) as [q|], (log2FoldChange r) as [f|]; simpl;
    rewrite ?andb_true_r, ?andb_false_r; simpl.
  - rewrite andb_true_iff, !Qlt_bool_spec. split.
    + intros [H1 H2]. split; eauto.
    + intros [[q' [[= <-] H1]] [f' [[= <-] H2]]]. auto.
  - split; [discriminate|]. intros [_ [f' [? _]]]. discriminate.
  - split; [discriminate|]. intros [[q' [? _]] _]. discriminate.
  - split; [discriminate|]. intros [[q' [? _]] _]. discriminate.
Qed.

Lemma elem_of_map_filter_mask (col : Row -> option Q) (a l : Q) (rs : list Row) (g : string) :
  g ∈ map gene_symbol (filter (fun r => sig_mask col a l r) rs) ↔
  ∃ r, r ∈ rs ∧ gene_symbol r = g ∧
       (∃ q, col r = Some q ∧ (q < a)%Q) ∧
       (∃ f, log2FoldChange r = Some f ∧ (l < Qabs f)%Q).
Proof.
  rewrite list_elem_of_In, in_map_iff. split.
  - intros [r [Hg Hin]]. apply list_elem_of_In, list_elem_of_filter in Hin.
    destruct Hin as [Hm Hin]. apply Is_true_true, sig_mask_spec in Hm. exists r. tauto.
  - intros [r [Hin [Hg Hm]]]. exists r. split; [exact Hg|].
    apply list_elem_of_In, list_elem_of_filter. split; [|exact Hin].
    apply Is_true_true, sig_mask_spec. exact Hm.
Qed.

(** C2: a gene identifier is in the DEG set exactly when it is not the
    text ['nan'] and some row carries it whose significance value (adjusted
    column if present, else raw column if present; no column, no gene) is
    present and strictly below the significance threshold and whose fold
    change is present with absolute value strictly above the fold-change
    threshold. Values at a threshold are thus excluded, and a table with
    neither significance column gives the empty set. *)
Theorem extract_degs_members (df : Table) (padj_threshold lfc_threshold : Q) (g : string) :
  g ∈ degs_of_table df padj_threshold lfc_threshold ↔
  g ≠ "nan"%string ∧
  ∃ col r, significance_column df = Some col ∧ r ∈ rows df ∧ gene_symbol r = g ∧
    (∃ q, col r = Some q ∧ (q < padj_threshold)%Q) ∧
    (∃ f, log2FoldChange r = Some f ∧ (lfc_threshold < Qabs f)%Q).
Proof.
  unfold degs_of_table. rewrite elem_of_list_to_set, list_elem_of_filter.
  assert (Hnan : (negb (String.eqb g "nan") : Prop) ↔ g ≠ "nan"%string).
  { rewrite Is_true_true, negb_true_iff, String.eqb_neq. reflexivity. }
  rewrite Hnan. apply and_iff_compat_l.
  unfold degs_list, significance_column.
  destruct (has_padj df); [|destruct (has_pvalue df)].
  - rewrite elem_of_map_filter_mask. split.
    + intros [r H]. exists (fun x => padj x), r. tauto.
    + intros [col [r [[= <-] H]]]. exists r. exact H.
  - rewrite elem_of_map_filter_mask. split.
    + intros [r H]. exists (fun x => pvalue x), r. tauto.
    + intros [col [r [[= <-] H]]]. exists r. exact H.
  - split.
    + intros H. apply list_elem_of_In in H. destruct H.
    + intros [col [r [[=] _]]].
Qed.

(* ------------------------------------------------------------------ *)
(** ** Merging two comparisons *)

Section Counting.
Context {A B : Type} (R : A -> B -> bool).

Lemma sum_list_with_zero (l : list B) : sum_list_with (fun _ => 0) l = 0.
  Proof. induction l; simpl; lia. Qed.

Lemma count_cons_left (a : A) (xs : list A) (b : B) :
    length (filter (fun x => R x b) (a :: xs)) =
    (if R a b then 1 else 0) + length (filter (fun x => R x b) xs).
  Proof. rewrite filter_cons. destruct (R a b); reflexivity. Qed.

Lemma sum_count_indicator (a : A) (ys : list B) :
    sum_list_with (fun b => if R a b then 1 else 0) ys = length (filter (fun b => R a b) ys).
  Proof.
    induction ys as [|b ys IH]; [reflexivity|].
    rewrite filter_cons. simpl. destruct (R a b); simpl; lia.
  Qed.

Lemma sum_list_with_plus (f g : B -> nat) (ys : list B) :
    sum_list_with (fun b => f b + g b) ys = sum_list_with f ys + sum_list_with g ys.
  Proof. induction ys; simpl; lia. Qed.

Lemma sum_list_with_pointwise (f g : B -> nat) (ys : list B) :
    (∀ b, f b = g b) → sum_list_with f ys = sum_list_with g ys.
  Proof. intros H. induction ys; simpl; [reflexivity|]. rewrite H, IHys. reflexivity. Qed.

  (** Counting related pairs row by row on either side gives the same
      total. *)
Lemma double_count (xs : list A) (ys : list B) :
    sum_list_with (fun a => length (filter (fun b => R a b) ys)) xs =
    sum_list_with (fun b => length (filter (fun a => R a b) xs)) ys.
  Proof.
    induction xs as [|a xs IH]; simpl.
    - symmetry. rewrite (sum_list_with_zero ys) at 1.
      induction ys; simpl; [reflexivity|]. lia.
    - rewrite IH.
      rewrite (sum_list_with_pointwise (fun b => length (filter (fun x => R x b) (a :: xs)))
                 (fun b => (if R a b then 1 else 0) + length (filter (fun x => R x b) xs)))
        by (intros b; apply count_cons_left).
      rewrite sum_list_with_plus, sum_count_indicator. reflexivity.
  Qed.
End Counting.

Lemma length_flat_map {A B} (f : A -> list B) (l : list A) :
  length (flat_map f l) = sum_list_with (fun a => length (f a)) l.
Proof. induction l; simpl; [reflexivity|]. rewrite length_app. lia. Qed.

Lemma sum_list_with_le_length {A} (f : A -> nat) (l : list A) :
  (∀ a, f a ≤ 1) → sum_list_with f l ≤ length l.
Proof. intros Hf. induction l as [|a l IH]; simpl; [lia|]. specialize (Hf a). lia. Qed.

(** With distinct keys on one side, a key matches at most one row there. *)
Lemma matches_le_1 (g : string) (rs : list Row) :
  NoDup (map gene_symbol rs) →
  length (filter (fun r => String.eqb g (gene_symbol r)) rs) ≤ 1.
Proof.
  induction rs as [|r rs IH]; simpl; intros Hnd; [lia|].
  apply NoDup_cons in Hnd as [Hnot Hnd].
  rewrite filter_cons. destruct (String.eqb g (gene_symbol r)) eqn:E; simpl.
  - apply String.eqb_eq in E. subst g.
    assert (Hz : filter (fun r0 => String.eqb (gene_symbol r) (gene_symbol r0)) rs = []).
    { clear IH Hnd. induction rs as [|r' rs IH']; [reflexivity|].
      rewrite filter_cons.
      destruct (String.eqb (gene_symbol r) (gene_symbol r')) eqn:E'.
      - exfalso. apply Hnot. apply String.eqb_eq in E'. rewrite E'. simpl. left.
      - simpl. apply IH'. intros Hin. apply Hnot. simpl. right. exact Hin. }
    rewrite Hz. simpl. lia.
  - apply IH. exact Hnd.
Qed.

(** C1 (counterexample): two files of two rows each that share the gene
    identifier "X" on every row merge into four rows, more than
    min(2, 2). *)
Lemma merge_row_count_counterexample :
  length (raw_rows dup_gene_file) = 2 ∧
  ∃ m s',
    merge_comparisons "a.tsv" "b.tsv"
      (init_st (<["a.tsv" := dup_gene_file]> (<["b.tsv" := dup_gene_file]> ∅))) = (inr m, s') ∧
    length m = 4 ∧ ¬ (length m ≤ Nat.min 2 2).
Proof.
  split; [reflexivity|].
  eexists _, _. split; [vm_compute; reflexivity|].
  split; [reflexivity|]. simpl. lia.
Qed.

(** C1 (as amended): every merged row pairs a row of the first table
    with a row of the second carrying the same gene identifier, so every
    merged gene identifier occurs in both tables; the merged row count is
    the number of such pairs, which is the sum over the first table's rows
    of the number of matching rows of the second. It is at most the
    first table's row count when identifiers are unique in the second, at
    most the second's when they are unique in the first, and at most
    min(|A|, |B|) when they are unique in both. *)
Theorem merge_inner_join_rows (A B : Table) :
  (∀ r1 r2, (r1, r2) ∈ pd_merge_inner A B →
     r1 ∈ rows A ∧ r2 ∈ rows B ∧ gene_symbol r1 = gene_symbol r2) ∧
  length (pd_merge_inner A B) =
    sum_list_with (fun r1 => length (filter (fun r2 => String.eqb (gene_symbol r1) (gene_symbol r2))
                                            (rows B))) (rows A) ∧
  (NoDup (map gene_symbol (rows B)) → length (pd_merge_inner A B) ≤ length (rows A)) ∧
  (NoDup (map gene_symbol (rows A)) → length (pd_merge_inner A B) ≤ length (rows B)) ∧
  (NoDup (map gene_symbol (rows A)) → NoDup (map gene_symbol (rows B)) →
     length (pd_merge_inner A B) ≤ Nat.min (length (rows A)) (length (rows B))).
Proof.
  assert (Hlen : length (pd_merge_inner A B) =
    sum_list_with (fun r1 => length (filter (fun r2 => String.eqb (gene_symbol r1) (gene_symbol r2))
                                            (rows B))) (rows A)).
  { unfold pd_merge_inner. rewrite length_flat_map.
    apply sum_list_with_pointwise. intros r1. apply length_map. }
  assert (HA : NoDup (map gene_symbol (rows B)) → length (pd_merge_inner A B) ≤ length (rows A)).
  { intros Hnd. rewrite Hlen. apply sum_list_with_le_length.
    intros r1. apply matches_le_1. exact Hnd. }
  assert (HB : NoDup (map gene_symbol (rows A)) → length (pd_merge_inner A B) ≤ length (rows B)).
  { intros Hnd. rewrite Hlen.
    rewrite (double_count (fun r1 r2 => String.eqb (gene_symbol r1) (gene_symbol r2))).
    apply sum_list_with_le_length. intros r2.
    rewrite (list_filter_iff _ (fun r1 => String.eqb (gene_symbol r2) (gene_symbol r1))).
    - apply matches_le_1. exact Hnd.
    - intros r1. rewrite !Is_true_true, !String.eqb_eq. split; intros; congruence. }
  split; [|split; [exact Hlen|split; [exact HA|split; [exact HB|]]]].
  - intros r1 r2 Hin. unfold pd_merge_inner in Hin.
    apply list_elem_of_In, in_flat_map in Hin as [r1' [Hr1' Hin]].
    apply in_map_iff in Hin as [r2' [[= <- <-] Hr2]].
    apply list_elem_of_In, list_elem_of_filter in Hr2 as [Heq Hr2].
    apply Is_true_true, String.eqb_eq in Heq.
    split; [apply list_elem_of_In; exact Hr1'|]. auto.
  - intros H1 H2. specialize (HA H2). specialize (HB H1). lia.
Qed.

Lemma merge_inner_join_rows_witness :
  NoDup (map gene_symbol (rows (sanitize xy_file))) ∧
  length (pd_merge_inner (sanitize xy_file) (sanitize xy_file)) ≤ Nat.min 2 2.
Proof.
  assert (H : NoDup (map gene_symbol (rows (sanitize xy_file))))
    by (apply (bool_decide_unpack _); vm_compute; reflexivity).
  split; [exact H|].
  apply (proj2 (proj2 (proj2 (proj2 (merge_inner_join_rows (sanitize xy_file) (sanitize xy_file)))))).
  - exact H.
  - exact H.
Defined.

(* ------------------------------------------------------------------ *)
(** ** Loading and the cache *)

Lemma cache_inv_init (files : gmap string RawFile) : cache_inv (init_st files).
Proof. intros p l H. simpl in H. rewrite lookup_empty in H. discriminate. Qed.

Lemma cache_inv_write (l : nat) (t : Table) (s : St) : cache_inv s → cache_inv (write l t s).
Proof. intros H. exact H. Qed.

Lemma cache_inv_remove_file (p : string) (s : St) : cache_inv s → cache_inv (remove_file p s).
Proof. intros H. exact H. Qed.

Lemma cache_inv_clear (s : St) : cache_inv (snd (clear_cache s)).
Proof. intros p l H. simpl in H. rewrite lookup_empty in H. discriminate. Qed.

Lemma cache_inv_b_spec (s : St) : cache_inv_b s = true → cache_inv s.
Proof.
  intros H p l Hp. unfold cache_inv_b in H. rewrite forallb_forall in H.
  apply elem_of_map_to_list, list_elem_of_In in Hp.
  specialize (H _ Hp). simpl in H. apply Nat.ltb_lt. exact H.
Qed.

(** What a successful cached load does to the state: the DataFrame it
    returns is new, older objects keep their contents, the path's cache
    entry is a different object holding the same table, and no other
    path's entry changes. *)
Lemma load_ok_facts (p : string) (s s' : St) (l : nat) :
  cache_inv s → load_deseq2_file p true s = (inr l, s') →
  l = next s ∧ next s < next s' ∧ cache_inv s' ∧
  (∀ x, x < next s → heap s' x = heap s x) ∧
  (∃ lc, cache s' !! p = Some lc ∧ lc ≠ l ∧ heap s' lc = heap s' l) ∧
  (∀ q, q ≠ p → cache s' !! q = cache s !! q) ∧
  (∀ lc, cache s !! p = Some lc → cache s' !! p = Some lc).
Proof.
  intros Hinv H. unfold load_deseq2_file, bind, get in H. simpl in H.
  destruct (cache s !! p) as [lc|] eqn:Hc.
  - unfold copy, bind, deref, alloc in H. simpl in H. injection H as <- <-. simpl.
    assert (Hlc : lc < next s) by (exact (Hinv p lc Hc)).
    split; [reflexivity|]. split; [lia|]. split.
    { intros q l' Hq. specialize (Hinv q l' Hq). simpl. lia. }
    split.
    { intros x Hx. destruct (Nat.eqb_spec x (next s)); [lia|reflexivity]. }
    split.
    { exists lc. split; [exact Hc|]. split; [lia|].
      rewrite Nat.eqb_refl. destruct (Nat.eqb_spec lc (next s)); [lia|reflexivity]. }
    split; [reflexivity|]. intros lc' Hlc'. rewrite Hc. exact Hlc'.
  - destruct (fs s !! p) as [[f|]|] eqn:Hf; [|discriminate|discriminate].
    destruct (missing_cols (header f)) eqn:Hm; [|discriminate].
    unfold copy, bind, deref, alloc, set_cache, ret in H. simpl in H.
    injection H as <- <-. simpl.
    split; [reflexivity|]. split; [lia|]. split.
    { intros q l' Hq. simpl in Hq.
      destruct (decide (q = p)) as [->|Hne].
      - rewrite lookup_insert_eq in Hq. injection Hq as <-. simpl; lia.
      - rewrite lookup_insert_ne in Hq by congruence. specialize (Hinv q l' Hq). simpl; lia. }
    split.
    { intros x Hx. destruct (Nat.eqb_spec x (S (next s))); [lia|].
      destruct (Nat.eqb_spec x (next s)); [lia|reflexivity]. }
    split.
    { exists (S (next s)). rewrite lookup_insert_eq. split; [reflexivity|]. split; [lia|].
      rewrite Nat.eqb_refl, Nat.eqb_refl.
      destruct (Nat.eqb_spec (next s) (S (next s))); [lia|]. rewrite ?Nat.eqb_refl. reflexivity. }
    split.
    { intros q Hq. apply lookup_insert_ne. congruence. }
    intros lc' Hlc'. discriminate.
Qed.

(** A failed load changes nothing. *)
Lemma load_err_state (p : string) (use_cache : bool) (s s' : St) (e : Err) :
  load_deseq2_file p use_cache s = (inl e, s') → s' = s.
Proof.
  intros H. unfold load_deseq2_file, bind, get in H. simpl in H.
  destruct (if use_cache then cache s !! p else None) as [lc|].
  - unfold copy, bind, deref, alloc in H. discriminate.
  - destruct (fs s !! p) as [[f|]|]; [|injection H as _ <-; reflexivity..].
    destruct (missing_cols (header f)); [|injection H as _ <-; reflexivity].
    destruct use_cache; unfold copy, bind, deref, alloc, set_cache, ret in H; discriminate.
Qed.

(** Loading keeps every existing cache entry and its contents. *)
Lemma load_keeps_cached (p q : string) (s : St) (T : Table) :
  cache_inv s → cached s q = Some T →
  cache_inv (snd (load_deseq2_file p true s)) ∧
  cached (snd (load_deseq2_file p true s)) q = Some T ∧
  next s ≤ next (snd (load_deseq2_file p true s)).
Proof.
  intros Hinv HT.
  destruct (load_deseq2_file p true s) as [[e|l] s'] eqn:E; simpl.
  - apply load_err_state in E. subst s'. auto.
  - destruct (load_ok_facts p s s' l Hinv E)
      as (-> & Hnext & Hinv' & Hold & _ & Hother & Hsame).
    split; [exact Hinv'|]. split; [|lia].
    unfold cached in *. destruct (cache s !! q) as [lq|] eqn:Hq; [|discriminate].
    injection HT as <-.
    assert (Hlq : lq < next s) by (exact (Hinv q lq Hq)).
    destruct (decide (q = p)) as [->|Hne].
    + rewrite (Hsame lq Hq). rewrite (Hold lq Hlq). reflexivity.
    + rewrite (Hother q Hne), Hq. rewrite (Hold lq Hlq). reflexivity.
Qed.

(** C3: loading a path twice (the first copy possibly mutated by the
    caller in between) yields two distinct DataFrame objects with the
    same contents, and mutating either one leaves the other unchanged. *)
Theorem load_twice_independent (p : string) (s s1 s2 : St) (l1 l2 : nat) (t : Table) :
  cache_inv s →
  load_deseq2_file p true s = (inr l1, s1) →
  load_deseq2_file p true (write l1 t s1) = (inr l2, s2) →
  heap s2 l2 = heap s1 l1 ∧ l1 ≠ l2 ∧
  (∀ t', heap (write l1 t' s2) l2 = heap s2 l2) ∧
  (∀ t', heap (write l2 t' s2) l1 = heap s2 l1).
Proof.
  intros Hinv H1 H2.
  destruct (load_ok_facts p s s1 l1 Hinv H1)
    as (Hl1 & Hn1 & Hinv1 & _ & (lc & Hlc & Hne & Heq) & _ & _).
  destruct (load_ok_facts p (write l1 t s1) s2 l2 (cache_inv_write l1 t s1 Hinv1) H2)
    as (Hl2 & Hn2 & _ & Hold2 & (lc2 & Hlc2 & _ & Heq2) & _ & Hsame2).
  simpl in Hl2, Hold2, Hsame2.
  specialize (Hsame2 lc Hlc). rewrite Hsame2 in Hlc2. injection Hlc2 as <-.
  assert (Hlt : lc < next s1) by (exact (Hinv1 p lc Hlc)).
  assert (Hl12 : l1 ≠ l2) by lia.
  split; [|split; [exact Hl12|split]].
  - rewrite <- Heq2, (Hold2 lc Hlt). simpl.
    destruct (Nat.eqb_spec lc l1); [contradiction|]. exact Heq.
  - intros t'. simpl. destruct (Nat.eqb_spec l2 l1); [congruence|reflexivity].
  - intros t'. simpl. destruct (Nat.eqb_spec l1 l2); [congruence|reflexivity].
Qed.

Lemma load_twice_independent_witness :
  ∃ s1 l1 s2 l2,
    load_deseq2_file "a.tsv" true (init_st xy_disk) = (inr l1, s1) ∧
    load_deseq2_file "a.tsv" true (write l1 empty_table s1) = (inr l2, s2) ∧
    heap s2 l2 = heap s1 l1 ∧ l1 ≠ l2.
Proof.
  eexists _, _, _, _.
  split; [vm_compute; reflexivity|].
  split; [vm_compute; reflexivity|].
  destruct (load_twice_independent "a.tsv" (init_st xy_disk) _ _ _ _ empty_table
              (cache_inv_init _) ltac:(vm_compute; reflexivity) ltac:(vm_compute; reflexivity))
    as (H1 & H2 & _).
  split; [exact H1 | exact H2].
Defined.

(** C9: [merge_comparisons] and [extract_degs] never change an existing
    cache entry or its contents (they only read the copies [load] hands
    out; a load may only add entries for paths not yet cached), and a
    load served from the cache leaves the whole cache as it was. *)
Theorem cache_kept_by_merge_extract (s : St) (p1 p2 q : string)
  (padj_threshold lfc_threshold : Q) (T : Table) :
  cache_inv s → cached s q = Some T →
  cached (snd (merge_comparisons p1 p2 s)) q = Some T ∧
  cached (snd (extract_degs p1 padj_threshold lfc_threshold s)) q = Some T ∧
  (∀ lc, cache s !! p1 = Some lc →
     cache (snd (load_deseq2_file p1 true s)) = cache s ∧
     ∀ q', cached (snd (load_deseq2_file p1 true s)) q' = cached s q').
Proof.
  intros Hinv HT.
  pose proof (load_keeps_cached p1 q s T Hinv HT) as (Hinv1 & HT1 & _).
  split; [|split].
  - unfold merge_comparisons, bind.
    destruct (load_deseq2_file p1 true s) as [[e|l1] s1] eqn:E1; simpl in *; [exact HT1|].
    pose proof (load_keeps_cached p2 q s1 T Hinv1 HT1) as (_ & HT2 & _).
    destruct (load_deseq2_file p2 true s1) as [[e|l2] s2] eqn:E2; simpl in *; exact HT2.
  - unfold extract_degs, bind.
    destruct (load_deseq2_file p1 true s) as [[e|l1] s1] eqn:E1; simpl in *; exact HT1.
  - intros lc Hc.
    destruct (load_deseq2_file p1 true s) as [[e|l1] s1] eqn:E1; simpl.
    { apply load_err_state in E1. subst s1. auto. }
    destruct (load_ok_facts p1 s s1 l1 Hinv E1)
      as (-> & _ & _ & Hold & _ & Hother & Hsame).
    assert (Hmap : cache s1 = cache s).
    { apply map_eq. intros q'. destruct (decide (q' = p1)) as [->|Hne].
      - rewrite (Hsame lc Hc), Hc. reflexivity.
      - apply Hother. exact Hne. }
    split; [exact Hmap|]. intros q'. unfold cached. rewrite Hmap.
    destruct (cache s !! q') as [lq|] eqn:Hq; [|reflexivity].
    rewrite (Hold lq (Hinv q' lq Hq)). reflexivity.
Qed.

Lemma cache_kept_by_merge_extract_witness :
  cached (snd (merge_comparisons "a.tsv" "b.tsv"
                 (snd (load_deseq2_file "a.tsv" true
                         (init_st xy_disk))))) "a.tsv" =
  Some (sanitize xy_file).
Proof.
  apply (cache_kept_by_merge_extract
           (snd (load_deseq2_file "a.tsv" true (init_st xy_disk)))
           "a.tsv" "b.tsv" "a.tsv" 0 0 (sanitize xy_file)).
  - apply cache_inv_b_spec. vm_compute. reflexivity.
  - vm_compute. reflexivity.
Defined.

(** C6 (counterexample): once "a.tsv" is cached, deleting the file does
    not make [load] fail with [FileNotFoundError]; the cached copy is
    served without looking at the disk. *)
Lemma load_not_found_counterexample :
  fs (remove_file "a.tsv" (snd (load_deseq2_file "a.tsv" true (init_st xy_disk)))) !! "a.tsv"
    = None ∧
  ∃ l s',
    load_deseq2_file "a.tsv" true
      (remove_file "a.tsv" (snd (load_deseq2_file "a.tsv" true (init_st xy_disk))))
    = (inr l, s').
Proof.
  split; [vm_compute; reflexivity|].
  eexists _, _. vm_compute. reflexivity.
Qed.

Lemma missing_cols_spec (hdr : list string) :
  missing_cols hdr = [] ↔
  col_in "gene_symbol" hdr = true ∧ col_in "log2FoldChange" hdr = true.
Proof.
  unfold missing_cols, required_cols. rewrite !filter_cons, filter_nil.
  destruct (col_in "gene_symbol" hdr), (col_in "log2FoldChange" hdr); simpl;
    split; try discriminate; try (intros [? ?]; discriminate); auto.
Qed.

Lemma missing_cols_elem (hdr : list string) (c : string) :
  c ∈ missing_cols hdr ↔ (c = "gene_symbol" ∨ c = "log2FoldChange") ∧ col_in c hdr = false.
Proof.
  unfold missing_cols, required_cols. rewrite list_elem_of_filter, Is_true_true, negb_true_iff.
  rewrite elem_of_cons, list_elem_of_singleton. split.
  - intros [Hc [-> | ->]]; auto.
  - intros [[-> | ->] Hc]; auto.
Qed.

(** C6 (as amended): when the cache is not consulted (disabled, or no
    entry for the path), [load] fails with [FileNotFoundError] on a path
    that does not exist, with the reading error on a path that exists but
    [pd.read_csv] cannot read (a directory, say), and with [ValueError]
    (the schema error) on a readable file whose header lacks gene_symbol
    or log2FoldChange; its list holds exactly the missing ones of these
    two columns. Each failure changes nothing. A readable file with both
    columns loads. A path that has a cache entry is served from the cache
    and never fails, whatever the disk now holds. *)
Theorem load_failures (p : string) (use_cache : bool) (s : St) :
  ((use_cache = false ∨ cache s !! p = None) → fs s !! p = None →
     load_deseq2_file p use_cache s = (inl FileNotFoundError, s)) ∧
  ((use_cache = false ∨ cache s !! p = None) → fs s !! p = Some Unreadable →
     load_deseq2_file p use_cache s = (inl ReadError, s)) ∧
  (∀ f, (use_cache = false ∨ cache s !! p = None) → fs s !! p = Some (Regular f) →
     (col_in "gene_symbol" (header f) = false ∨ col_in "log2FoldChange" (header f) = false) →
     ∃ ms, load_deseq2_file p use_cache s = (inl (ValueError ms), s) ∧ ms ≠ [] ∧
           ∀ c, c ∈ ms ↔ (c = "gene_symbol" ∨ c = "log2FoldChange") ∧ col_in c (header f) = false) ∧
  (∀ f, (use_cache = false ∨ cache s !! p = None) → fs s !! p = Some (Regular f) →
     col_in "gene_symbol" (header f) = true → col_in "log2FoldChange" (header f) = true →
     ∃ l s', load_deseq2_file p use_cache s = (inr l, s')) ∧
  (∀ lc, use_cache = true → cache s !! p = Some lc →
     ∃ l s', load_deseq2_file p use_cache s = (inr l, s')).
Proof.
  assert (Hmiss : (use_cache = false ∨ cache s !! p = None) →
                  (if use_cache then cache s !! p else None) = None).
  { intros [-> | H]; [reflexivity|]. destruct use_cache; [exact H|reflexivity]. }
  unfold load_deseq2_file, bind, get. simpl.
  split; [|split; [|split; [|split]]].
  - intros Hm Hf. rewrite (Hmiss Hm), Hf. reflexivity.
  - intros Hm Hf. rewrite (Hmiss Hm), Hf. reflexivity.
  - intros f Hm Hf Hcols. rewrite (Hmiss Hm), Hf.
    destruct (missing_cols (header f)) as [|c cs] eqn:E.
    + apply missing_cols_spec in E as [E1 E2]. destruct Hcols; congruence.
    + exists (c :: cs). split; [reflexivity|]. split; [discriminate|].
      intros x. rewrite <- E. apply missing_cols_elem.
  - intros f Hm Hf H1 H2. rewrite (Hmiss Hm), Hf.
    assert (E : missing_cols (header f) = []) by (apply missing_cols_spec; auto).
    rewrite E. destruct use_cache; eexists _, _; reflexivity.
  - intros lc -> Hc. rewrite Hc. eexists _, _. reflexivity.
Qed.

Lemma load_failures_witness :
  load_deseq2_file "b.tsv" true (init_st xy_disk) = (inl FileNotFoundError, init_st xy_disk).
Proof.
  apply (proj1 (load_failures "b.tsv" true (init_st xy_disk))).
  - right. vm_compute. reflexivity.
  - vm_compute. reflexivity.
Defined.

(* ------------------------------------------------------------------ *)
(** ** Display names *)

Local Open Scope string_scope.

(** A string with no underscore has no split point and no occurrence of a
    pattern that starts with an underscore. *)
Lemma split_none_index (r s : string) :
  split_at_char "_"%char s = None → index 0 (String "_"%char r) s = None.
Proof.
  induction s as [|x s IH]; [reflexivity|].
  cbn -[ascii_dec Ascii.eqb]. destruct (Ascii.eqb x "_"%char) eqn:Ex; [discriminate|].
  destruct (split_at_char "_"%char s) as [[a b]|]; [discriminate|].
  intros _. destruct (ascii_dec "_"%char x) as [Heq|_].
  - subst x. discriminate.
  - rewrite (IH eq_refl). reflexivity.
Qed.

(** C10: [get_file_display_name] returns the file's stem unchanged when
    it does not contain "_results"; when it does, the stem has an
    underscore and the result is the text after the first underscore with
    every occurrence of "_results" removed (no date formatting, no
    underscore replacement, no truncation). *)
Theorem get_file_display_name_spec (file_path : string) :
  let stem := splitext_root (basename file_path) in
  (str_contains "_results" stem = false → get_file_display_name file_path = stem) ∧
  (str_contains "_results" stem = true →
     ∃ before after, split_at_char "_"%char stem = Some (before, after) ∧
       get_file_display_name file_path = str_replace "_results" "" after).
Proof.
  intros stem. unfold get_file_display_name. fold stem. split.
  - intros H. rewrite H. reflexivity.
  - intros H. rewrite H. unfold split1.
    destruct (split_at_char "_"%char stem) as [[a b]|] eqn:E.
    + exists a, b. split; reflexivity.
    + exfalso. unfold str_contains in H.
      rewrite (split_none_index "results" stem E) in H. discriminate.
Qed.

Lemma get_file_display_name_spec_witness :
  get_file_display_name "data/deseq2_results/primary/20240101_treated_vs_control_results.tsv"
    = str_replace "_results" "" "treated_vs_control_results" ∧
  get_file_display_name "data/deseq2_results/primary/20240101_treated_vs_control_results.tsv"
    = "treated_vs_control".
Proof.
  split; [|vm_compute; reflexivity].
  destruct (proj2 (get_file_display_name_spec
                     "data/deseq2_results/primary/20240101_treated_vs_control_results.tsv")
                  ltac:(vm_compute; reflexivity)) as (a & b & Hs & Hr).
  vm_compute in Hs. injection Hs as <- <-. exact Hr.
Defined.

Local Close Scope string_scope.

Local Open Scope string_scope.

Lemma append_cons (c : ascii) (a b : string) : String c a ++ b = String c (a ++ b).
Proof. reflexivity. Qed.

Lemma append_nil_l (b : string) : "" ++ b = b.
Proof. reflexivity. Qed.

Lemma substring_full (s : string) : substring 0 (String.length s) s = s.
Proof. induction s as [|c s IH]; simpl; [reflexivity|]. rewrite IH. reflexivity. Qed.

Lemma length_append (a b : string) : String.length (a ++ b) = String.length a + String.length b.
Proof. induction a as [|c a IH]; [reflexivity|]. rewrite append_cons. simpl. rewrite IH. reflexivity. Qed.

(** A prefix match splits the string there. *)
Lemma prefix_split (pat s : string) :
  String.prefix pat s = true →
  s = pat ++ substring (String.length pat) (String.length s - String.length pat) s.
Proof.
  revert s. induction pat as [|a pat IH]; intros s H.
  - simpl. rewrite Nat.sub_0_r, substring_full. reflexivity.
  - destruct s as [|b s]; [discriminate|].
    simpl in H. destruct (ascii_dec a b) as [<-|]; [|discriminate].
    rewrite append_cons. cbn [String.length substring]. f_equal. apply IH. exact H.
Qed.

(** [replace] does nothing when the pattern does not occur. *)
Lemma str_replace_fuel_absent (fuel : nat) (pat rep s : string) :
  index 0 pat s = None → str_replace_fuel fuel pat rep s = s.
Proof.
  revert s. induction fuel as [|fuel IH]; intros s H; [reflexivity|].
  destruct s as [|c s]; [reflexivity|].
  cbn -[String.prefix] in H. cbn -[String.prefix].
  destruct (String.prefix pat (String c s)); [discriminate|].
  destruct (index 0 pat s) eqn:E; [discriminate|].
  rewrite (IH s E). reflexivity.
Qed.

Lemma prefix_underscore (c : ascii) (s : string) :
  String.prefix "_" (String c s) = Ascii.eqb c "_"%char.
Proof.
  cbn -[ascii_dec]. destruct (ascii_dec "_"%char c) as [<-|Hne]; [destruct s; reflexivity|].
  symmetry. apply Ascii.eqb_neq. congruence.
Qed.

(** Replacing "_" by " " maps every character. *)
Lemma str_replace_fuel_underscore (fuel : nat) (s : string) :
  (String.length s ≤ fuel)%nat → str_replace_fuel fuel "_" " " s = underscores_to_spaces s.
Proof.
  revert s. induction fuel as [|fuel IH]; intros s Hlen.
  - destruct s; [reflexivity|simpl in Hlen; lia].
  - destruct s as [|c s]; [reflexivity|].
    cbn -[String.prefix]. rewrite prefix_underscore.
    simpl in Hlen.
    destruct (Ascii.eqb c "_"%char) eqn:E.
    + simpl. rewrite Nat.sub_0_r, substring_full, IH by lia. reflexivity.
    + rewrite IH by lia. reflexivity.
Qed.

Lemma underscores_to_spaces_app (a b : string) :
  underscores_to_spaces (a ++ b) = underscores_to_spaces a ++ underscores_to_spaces b.
Proof.
  induction a as [|c a IH]; [reflexivity|].
  rewrite append_cons. simpl. rewrite IH. reflexivity.
Qed.

(** Replacing "_vs_" by " vs " first changes nothing once every
    underscore becomes a space. *)
Lemma str_replace_fuel_vs (fuel : nat) (s : string) :
  (String.length s ≤ fuel)%nat →
  underscores_to_spaces (str_replace_fuel fuel "_vs_" " vs " s) = underscores_to_spaces s.
Proof.
  revert s. induction fuel as [|fuel IH]; intros s Hlen.
  - destruct s; [reflexivity|simpl in Hlen; lia].
  - destruct s as [|c s]; [reflexivity|].
    cbn -[String.prefix underscores_to_spaces].
    destruct (String.prefix "_vs_" (String c s)) eqn:P.
    + apply prefix_split in P. simpl String.length in P.
      set (rest := substring 4 (S (String.length s) - 4) (String c s)) in *.
      rewrite underscores_to_spaces_app, IH.
      * rewrite P. rewrite underscores_to_spaces_app. reflexivity.
      * assert (Hl : String.length (String c s) = 4 + String.length rest)
          by (rewrite P at 1; rewrite length_append; reflexivity).
        change (String.length rest <= fuel). simpl in Hl, Hlen. lia.
    + simpl. rewrite IH by (simpl in Hlen; lia). reflexivity.
Qed.

Local Close Scope string_scope.

Local Open Scope string_scope.

Lemma digit_not_underscore (c : ascii) : is_digit_char c = true → Ascii.eqb c "_"%char = false.
Proof.
  intros H. destruct (Ascii.eqb c "_"%char) eqn:E; [|reflexivity].
  apply Ascii.eqb_eq in E. subst c. discriminate H.
Qed.

Lemma split_at_char_some (c : ascii) (s a b : string) :
  split_at_char c s = Some (a, b) → s = a ++ String c b.
Proof.
  revert a. induction s as [|x s IH]; intros a H; [discriminate|].
  simpl in H. destruct (Ascii.eqb x c) eqn:E.
  - injection H as <- <-. apply Ascii.eqb_eq in E. subst x. reflexivity.
  - destruct (split_at_char c s) as [[a' b']|] eqn:S'; [|discriminate].
    injection H as <- <-. rewrite append_cons. f_equal. apply IH. reflexivity.
Qed.

Lemma split_at_char_digits (a b : string) :
  all_digits a = true → split_at_char "_"%char (a ++ String "_" b) = Some (a, b).
Proof.
  induction a as [|x a IH]; intros H; [reflexivity|].
  simpl in H. apply andb_prop in H as [Hx Ha].
  rewrite append_cons. simpl. rewrite (digit_not_underscore x Hx), (IH Ha). reflexivity.
Qed.

Lemma date_prefix_some (n fd r : string) :
  date_prefix n = Some (fd, r) →
  ∃ d, n = d ++ String "_" r ∧ all_digits d = true ∧ String.length d = 8 ∧ fd = fmt_date d.
Proof.
  intros H.
  destruct n as [|y1 [|y2 [|y3 [|y4 [|m1 [|m2 [|d1 [|d2 [|u rest]]]]]]]]];
    try discriminate H.
  unfold date_prefix in H.
  destruct (all_digits _ && Ascii.eqb u "_"%char) eqn:E; [|discriminate H].
  injection H as <- <-. apply andb_prop in E as [Hd Hu].
  apply Ascii.eqb_eq in Hu. subst u.
  exists (String y1 (String y2 (String y3 (String y4 (String m1 (String m2 (String d1 (String d2 ""))))))))%string.
  split; [reflexivity|]. split; [exact Hd|]. split; reflexivity.
Qed.

Lemma date_prefix_of_split (n p0 p1 : string) :
  split_at_char "_"%char n = Some (p0, p1) →
  isdigit p0 && Nat.eqb (String.length p0) 8 = true →
  date_prefix n = Some (fmt_date p0, p1).
Proof.
  intros Hs Hd. apply split_at_char_some in Hs. subst n.
  apply andb_prop in Hd as [Hdig Hlen]. apply Nat.eqb_eq in Hlen.
  unfold isdigit in Hdig. apply andb_prop in Hdig as [_ Hdig].
  destruct p0 as [|y1 [|y2 [|y3 [|y4 [|m1 [|m2 [|d1 [|d2 [|z p0]]]]]]]]];
    simpl in Hlen; try discriminate Hlen.
  rewrite !append_cons, append_nil_l. unfold date_prefix.
  rewrite Hdig. reflexivity.
Qed.

Local Close Scope string_scope.

Local Open Scope string_scope.

Lemma str_replace_underscore (y : string) : str_replace "_" " " y = underscores_to_spaces y.
Proof. apply str_replace_fuel_underscore. lia. Qed.

Lemma str_replace_vs (y : string) :
  underscores_to_spaces (str_replace "_vs_" " vs " y) = underscores_to_spaces y.
Proof. apply str_replace_fuel_vs. lia. Qed.

Lemma date_prefix_none_of_split (n : string) :
  (∀ p0 p1, split_at_char "_"%char n = Some (p0, p1) →
            isdigit p0 && Nat.eqb (String.length p0) 8 = false) →
  date_prefix n = None.
Proof.
  intros H. destruct (date_prefix n) as [[fd r]|] eqn:DP; [|reflexivity].
  apply date_prefix_some in DP as (d & -> & Hd & Hlen & _).
  specialize (H d r (split_at_char_digits d r Hd)).
  unfold isdigit in H. rewrite Hd, Hlen in H.
  destruct d; [discriminate Hlen | discriminate H].
Qed.

(** C5 (code bug): the code, commented "Remove _results suffix",
    removes "_results" wherever it occurs, so "a_results_b", which has no
    trailing "_results", is shown as "a b", while stripping only a
    trailing suffix gives "a results b". *)
Lemma clean_display_name_counterexample :
  clean_display_name "a_results_b" = "a b" ∧
  claimed_display_name "a_results_b" = "a results b".
Proof. split; vm_compute; reflexivity. Qed.

Local Close Scope string_scope.

(* ------------------------------------------------------------------ *)
(** ** Discovery *)

Lemma str_leb_total (a b : string) : str_leb a b = false → str_leb b a = true.
Proof.
  unfold str_leb. rewrite (String.compare_antisym b a).
  destruct (String.compare a b); simpl; congruence.
Qed.

Lemma insert_sorted_perm (x : string) (l : list string) : insert_sorted x l ≡ₚ x :: l.
Proof.
  induction l as [|y l IH]; simpl; [reflexivity|].
  destruct (str_leb x y); [reflexivity|].
  rewrite IH. constructor.
Qed.

Lemma sort_names_perm (l : list string) : sort_names l ≡ₚ l.
Proof.
  induction l as [|x l IH]; simpl; [reflexivity|].
  rewrite insert_sorted_perm, IH. reflexivity.
Qed.

Lemma insert_sorted_sorted (x : string) (l : list string) :
  Sorted (λ a b, str_leb a b = true) l →
  Sorted (λ a b, str_leb a b = true) (insert_sorted x l).
Proof.
  induction 1 as [|y l Hs IH Hhd]; simpl.
  - repeat constructor.
  - destruct (str_leb x y) eqn:E.
    + constructor; [constructor; assumption|constructor; exact E].
    + constructor; [exact IH|].
      destruct l as [|z l]; simpl.
      * constructor. apply str_leb_total; exact E.
      * inversion Hhd; subst. destruct (str_leb x z); constructor;
          [apply str_leb_total; exact E|assumption].
Qed.

Lemma sort_names_sorted (l : list string) : Sorted (λ a b, str_leb a b = true) (sort_names l).
Proof.
  induction l as [|x l IH]; simpl; [constructor|].
  apply insert_sorted_sorted; exact IH.
Qed.

(** C8 (code bug): discovery, documented to find "all DESeq2 TSV
    files", globs "*.tsv" without checking that an entry is a regular
    file, so a sub-directory named "old.tsv" is listed as a primary
    comparison. *)
Lemma discover_deseq2_files_counterexample :
  discover_deseq2_files tsv_dir_disk "/app" "/" =
    [("/app/data/deseq2_results/primary/a_vs_b.tsv", "primary", "a vs b");
     ("/app/data/deseq2_results/primary/old.tsv", "primary", "old")] ∧
  ({| ename := "old.tsv"; eis_dir := true |}
     ∈ default [] (tsv_dir_disk !! "/app/data/deseq2_results/primary")).
Proof.
  split; [vm_compute; reflexivity|].
  vm_compute. left.
Qed.

(** X17: discovery reads the "primary" then the "secondary" directory of
    the results directory ("data/deseq2_results" under the dashboard
    directory when it exists, else "analysis_results/deseq2_results" under
    the project root). It returns all primary entries before all secondary
    ones; within each category the names are sorted lexicographically and
    are, up to order, the names of that directory's entries that match
    "*.tsv"; a missing directory contributes no entry and no error. *)
Theorem discover_deseq2_files_layout (d : Disk) (current_dir project_root : string) :
  let rd := get_deseq2_results_dir d current_dir project_root in
  let pdir := (rd ++ "/primary")%string in
  let sdir := (rd ++ "/secondary")%string in
  (rd = if path_exists d (current_dir ++ "/data/deseq2_results")%string
        then (current_dir ++ "/data/deseq2_results")%string
        else (project_root ++ "/analysis_results/deseq2_results")%string) ∧
  ∃ ps ss,
    discover_deseq2_files d current_dir project_root =
      map (λ n, ((pdir ++ "/" ++ n)%string, "primary", clean_display_name (path_stem n))) ps ++
      map (λ n, ((sdir ++ "/" ++ n)%string, "secondary", clean_display_name (path_stem n))) ss ∧
    Sorted (λ a b, str_leb a b = true) ps ∧
    Sorted (λ a b, str_leb a b = true) ss ∧
    ps ≡ₚ filter glob_tsv (map ename (default [] (d !! pdir))) ∧
    ss ≡ₚ filter glob_tsv (map ename (default [] (d !! sdir))) ∧
    (d !! pdir = None → ps = []) ∧
    (d !! sdir = None → ss = []).
Proof.
  intros rd pdir sdir. split; [reflexivity|].
  exists (sort_names (filter glob_tsv (map ename (default [] (d !! pdir))))),
         (sort_names (filter glob_tsv (map ename (default [] (d !! sdir))))).
  split; [|split; [apply sort_names_sorted|split; [apply sort_names_sorted|
                    split; [apply sort_names_perm|split; [apply sort_names_perm|]]]]].
  - unfold discover_deseq2_files, scan_dir. fold rd pdir sdir.
    destruct (d !! pdir), (d !! sdir); reflexivity.
  - split; intros ->; reflexivity.
Qed.

(* ------------------------------------------------------------------ *)
(** ** Display names, catalog entries and dropdown options *)

Local Open Scope string_scope.

Lemma length_substring_le (n m : nat) (s : string) :
  (String.length (substring n m s) ≤ m)%nat.
Proof.
  revert n m. induction s as [|c s IH]; intros [|n] [|m]; simpl; try lia;
    first [apply IH | specialize (IH 0 m); lia].
Qed.

Lemma truncate_55 (x : string) :
  (String.length (if Nat.ltb 55 (String.length x) then slice 0 52 x ++ "..." else x) ≤ 55)%nat.
Proof.
  destruct (Nat.ltb 55 (String.length x)) eqn:E.
  - rewrite length_append. unfold slice. pose proof (length_substring_le 0 (52 - 0) x).
    change (String.length "...") with 3. lia.
  - apply Nat.ltb_ge in E. exact E.
Qed.

(** X1: a catalog display name never has more than 55 characters. *)
Theorem clean_display_name_length (name : string) :
  (String.length (clean_display_name name) ≤ 55)%nat.
Proof.
  unfold clean_display_name.
  match goal with |- context [match ?m with pair _ _ => _ end] => destruct m as [[a b] c] end.
  apply truncate_55.
Qed.

(** X2: a dropdown option keeps the catalog path as its value; its label
    is "[P] " for the primary category and "[S] " for any other, followed
    by the display name, cut to 42 characters and "..." when it is longer
    than 45; so a label has at most 49 characters. *)
Theorem file_option_label (path cat name : string) :
  value (file_option (path, cat, name)) = path ∧
  (String.length (label (file_option (path, cat, name))) ≤ 49)%nat ∧
  (∃ short, label (file_option (path, cat, name))
              = "[" ++ (if String.eqb cat "primary" then "P" else "S") ++ "] " ++ short ∧
            (String.length short ≤ 45)%nat ∧
            ((String.length name ≤ 45)%nat → short = name)).
Proof.
  unfold file_option. simpl. split; [reflexivity|].
  destruct (Nat.leb (String.length name) 45) eqn:E.
  - apply Nat.leb_le in E. split.
    + rewrite !length_append. destruct (String.eqb cat "primary"); simpl; lia.
    + exists name. auto.
  - apply Nat.leb_gt in E.
    assert (Hs : (String.length (slice 0 42 name ++ "...") ≤ 45)%nat).
    { rewrite length_append. unfold slice. pose proof (length_substring_le 0 (42 - 0) name).
      change (String.length "...") with 3. lia. }
    split.
    + rewrite !length_append. rewrite length_append in Hs. simpl in Hs.
      destruct (String.eqb cat "primary"); simpl; lia.
    + exists (slice 0 42 name ++ "..."). split; [reflexivity|]. split; [exact Hs|lia].
Qed.

Lemma scan_dir_in (d : Disk) (dir category path cat name : string) :
  In (path, cat, name) (scan_dir d dir category) →
  cat = category ∧ (∃ n es e, d !! dir = Some es ∧ e ∈ es ∧ ename e = n ∧
                              path = dir ++ "/" ++ n ∧ glob_tsv n = true ∧
                              name = clean_display_name (path_stem n)).
Proof.
  unfold scan_dir. destruct (d !! dir) as [es|]; [|intros []].
  intros H. apply in_map_iff in H as (n & Heq & Hn). injection Heq as <- <- <-.
  apply list_elem_of_In in Hn. rewrite (sort_names_perm _) in Hn.
  apply list_elem_of_filter in Hn as [Hg Hn].
  apply list_elem_of_In, in_map_iff in Hn as (e & <- & He).
  split; [reflexivity|]. exists (ename e), es, e.
  split; [reflexivity|]. split; [apply list_elem_of_In; exact He|]. split; [reflexivity|].
  split; [reflexivity|]. split; [|reflexivity]. apply Is_true_true. exact Hg.
Qed.

(** X3: every entry discovery returns lies in the "primary" or
    "secondary" directory of the results directory and names an entry
    listed in that directory (a file or a sub-directory) whose name
    matches "*.tsv"; it carries the display name of the entry's stem,
    which has at most 55 characters. *)
Theorem discover_deseq2_files_entries (d : Disk) (current_dir project_root : string)
  (path cat name : string) :
  In (path, cat, name) (discover_deseq2_files d current_dir project_root) →
  let dir := (get_deseq2_results_dir d current_dir project_root ++ "/" ++ cat) in
  (cat = "primary" ∨ cat = "secondary") ∧ (String.length name ≤ 55)%nat ∧
  ∃ es e, d !! dir = Some es ∧ e ∈ es ∧
          path = dir ++ "/" ++ ename e ∧ glob_tsv (ename e) = true ∧
          name = clean_display_name (path_stem (ename e)).
Proof.
  unfold discover_deseq2_files. intros H. apply in_app_or in H as [H|H];
    apply scan_dir_in in H as (-> & n & es & e & Hd & He & <- & Hp & Hg & Hname);
    (split; [auto|]); (split; [rewrite Hname; apply clean_display_name_length|]);
    exists es, e; auto.
Qed.

Lemma discover_deseq2_files_entries_witness :
  In ("/app/data/deseq2_results/primary/a_vs_b.tsv", "primary", "a vs b")
     (discover_deseq2_files tsv_dir_disk "/app" "/") ∧
  let dir := (get_deseq2_results_dir tsv_dir_disk "/app" "/" ++ "/" ++ "primary") in
  ("primary" = "primary" ∨ "primary" = "secondary") ∧ (String.length "a vs b" ≤ 55)%nat ∧
  ∃ es e, tsv_dir_disk !! dir = Some es ∧ e ∈ es ∧
          "/app/data/deseq2_results/primary/a_vs_b.tsv" = dir ++ "/" ++ ename e ∧
          glob_tsv (ename e) = true ∧ "a vs b" = clean_display_name (path_stem (ename e)).
Proof.
  assert (H : In ("/app/data/deseq2_results/primary/a_vs_b.tsv", "primary", "a vs b")
                 (discover_deseq2_files tsv_dir_disk "/app" "/"))
    by (vm_compute; left; reflexivity).
  split; [exact H|]. exact (discover_deseq2_files_entries _ _ _ _ _ _ H).
Defined.

Lemma str_contains_cons (pat : string) (c : ascii) (s : string) :
  str_contains pat (String c s) = String.prefix pat (String c s) || str_contains pat s.
Proof.
  unfold str_contains.
  change (index 0 pat (String c s)) with
    (if String.prefix pat (String c s) then Some 0
     else match index 0 pat s with Some n => Some (S n) | None => None end).
  destruct (String.prefix pat (String c s)); [reflexivity|].
  destruct (index 0 pat s); reflexivity.
Qed.

Lemma str_contains_slash_app (a b : string) : str_contains "/" (a ++ "/" ++ b) = true.
Proof.
  induction a as [|c a IH].
  - rewrite append_nil_l, append_cons, str_contains_cons. destruct b; reflexivity.
  - rewrite append_cons, str_contains_cons, IH. apply orb_true_r.
Qed.

Lemma basename_no_slash (n : string) : str_contains "/" n = false → basename n = n.
Proof.
  destruct n as [|c n]; [reflexivity|]. intros H.
  rewrite str_contains_cons in H. apply orb_false_iff in H as [Hp Hn].
  simpl. rewrite Hn. simpl in Hp.
  destruct (Ascii.eqb c "/"%char) eqn:E; [|reflexivity].
  apply Ascii.eqb_eq in E. subst c. destruct n; discriminate Hp.
Qed.

Lemma basename_app (dir n : string) :
  str_contains "/" n = false → basename (dir ++ "/" ++ n) = n.
Proof.
  intros H. induction dir as [|c dir IH].
  - rewrite append_nil_l, append_cons, append_nil_l. cbn [basename]. rewrite H. reflexivity.
  - rewrite append_cons. cbn [basename]. rewrite str_contains_slash_app. exact IH.
Qed.

(** X4: [get_file_display_name] depends only on the file name: putting
    the file in any directory does not change its display name. *)
Theorem get_file_display_name_dir (dir name : string) :
  str_contains "/" name = false →
  get_file_display_name (dir ++ "/" ++ name) = get_file_display_name name.
Proof.
  intros H. unfold get_file_display_name.
  rewrite (basename_app dir name H), (basename_no_slash name H). reflexivity.
Qed.

Lemma get_file_display_name_dir_witness :
  str_contains "/" "20240101_a_vs_b_results.tsv" = false ∧
  get_file_display_name ("/data/primary" ++ "/" ++ "20240101_a_vs_b_results.tsv")
    = get_file_display_name "20240101_a_vs_b_results.tsv".
Proof.
  assert (H : str_contains "/" "20240101_a_vs_b_results.tsv" = false) by reflexivity.
  split; [exact H|]. exact (get_file_display_name_dir _ _ H).
Defined.

Local Close Scope string_scope.

(* ------------------------------------------------------------------ *)
(** ** Loading without the cache, and after clearing it *)

(** X5: with [use_cache=False] the loader neither reads nor writes the
    cache: it reports a missing path, an unreadable one or missing columns
    from the disk, or returns a new DataFrame holding the file's current
    contents, even when the path has a cache entry. *)
Theorem load_without_cache (p : string) (s : St) :
  cache (snd (load_deseq2_file p false s)) = cache s ∧
  match fs s !! p with
  | None => fst (load_deseq2_file p false s) = inl FileNotFoundError
  | Some Unreadable => fst (load_deseq2_file p false s) = inl ReadError
  | Some (Regular f) =>
      match missing_cols (header f) with
      | [] => ∃ l, fst (load_deseq2_file p false s) = inr l ∧
                   heap (snd (load_deseq2_file p false s)) l = sanitize f
      | ms => fst (load_deseq2_file p false s) = inl (ValueError ms)
      end
  end.
Proof.
  unfold load_deseq2_file, bind, get. simpl.
  destruct (fs s !! p) as [[f|]|]; simpl; [|split; reflexivity..].
  destruct (missing_cols (header f)) as [|c cs]; simpl; [|split; reflexivity].
  split; [reflexivity|]. exists (next s). split; [reflexivity|].
  rewrite Nat.eqb_refl. reflexivity.
Qed.

(** X6: after [clear_cache()] the next cached load reads the disk again:
    a file deleted since it was cached is reported missing, a path that
    cannot be read gives the reading error, and a readable file is returned with its current contents and cached anew. *)
Theorem clear_cache_then_load (p : string) (s : St) :
  let r := load_deseq2_file p true (snd (clear_cache s)) in
  match fs s !! p with
  | None => fst r = inl FileNotFoundError
  | Some Unreadable => fst r = inl ReadError
  | Some (Regular f) =>
      match missing_cols (header f) with
      | [] => ∃ l, fst r = inr l ∧ heap (snd r) l = sanitize f ∧
                   cached (snd r) p = Some (sanitize f)
      | ms => fst r = inl (ValueError ms)
      end
  end.
Proof.
  cbv zeta. unfold load_deseq2_file, clear_cache, bind, get. simpl.
  rewrite lookup_empty.
  destruct (fs s !! p) as [[f|]|]; simpl; [|reflexivity..].
  destruct (missing_cols (header f)) as [|c cs]; simpl; [|reflexivity].
  exists (next s). split; [reflexivity|]. rewrite Nat.eqb_refl.
  split; [destruct (Nat.eqb (next s) (S (next s))); reflexivity|].
  unfold cached. simpl. rewrite lookup_insert_eq.
  rewrite Nat.eqb_refl. reflexivity.
Qed.

(* ------------------------------------------------------------------ *)
(** ** The volcano tab *)

Lemma update_volcano_plot_plot regex fp fdr lfc gs hb s s' d :
  update_volcano_plot regex fp fdr lfc gs hb s = (inr (VolcanoPlot d), s') →
  truthy fp = true ∧ ∃ l, load_deseq2_file (path_of fp) true s = (inr l, s') ∧
    volcano_rows regex gs fdr lfc hb (heap s' l) = Some d.
Proof.
  unfold update_volcano_plot. destruct (truthy fp); simpl; [|unfold ret; discriminate].
  unfold bind at 1. destruct (load_deseq2_file (path_of fp) true s) as [[e|l] s1]; [discriminate|].
  unfold deref. destruct (volcano_rows regex gs fdr lfc hb (heap s1 l)) as [d0|] eqn:V;
    intros H; inversion H; subst; split; [reflexivity| exists l; auto].
Qed.

Lemma volcano_rows_some regex gs fdr lfc hb df d :
  volcano_rows regex gs fdr lfc hb df = Some d →
  hb = true ∧ has_pvalue df = true ∧ has_padj df = true ∧
  ∃ rs, gene_search_rows regex gene_symbol gs (rows df) = Some rs ∧
        d = map (classify (significance_column df) fdr lfc) rs.
Proof.
  unfold volcano_rows. destruct (gene_search_rows regex gene_symbol gs (rows df)) as [rs|];
    simpl; [|discriminate].
  destruct hb, (has_pvalue df), (has_padj df); simpl; try discriminate.
  intros H; injection H as <-. repeat split. eauto.
Qed.

(** X7: the volcano plot is only drawn for a table that has both the
    [pvalue] and [padj] columns (and [baseMean]): although the callback
    falls back from [padj] to [pvalue] to pick its p-values, its table
    step raises [KeyError] on a file lacking either column, so such a
    file always ends in the error panel. *)
Theorem volcano_plot_requires_columns regex fp fdr lfc gs hb s s' d :
  update_volcano_plot regex fp fdr lfc gs hb s = (inr (VolcanoPlot d), s') →
  hb = true ∧ ∃ l, load_deseq2_file (path_of fp) true s = (inr l, s') ∧
                   has_pvalue (heap s' l) = true ∧ has_padj (heap s' l) = true.
Proof.
  intros H. apply update_volcano_plot_plot in H as (_ & l & L & V).
  apply volcano_rows_some in V as (Hb & Hp & Hq & _).
  split; [exact Hb|]. exists l. auto.
Qed.

Lemma volcano_plot_requires_columns_witness :
  ∃ d s',
    update_volcano_plot match_nothing (Some "v.tsv"%string) (5 # 100) 1 None true
      (init_st volcano_disk) = (inr (VolcanoPlot d), s') ∧
    true = true ∧ ∃ l, load_deseq2_file "v.tsv" true (init_st volcano_disk) = (inr l, s') ∧
                       has_pvalue (heap s' l) = true ∧ has_padj (heap s' l) = true.
Proof.
  eexists _, _. split; [vm_compute; reflexivity|].
  eapply (volcano_plot_requires_columns match_nothing (Some "v.tsv"%string) (5 # 100) 1 None true
           (init_st volcano_disk)).
  vm_compute. reflexivity.
Defined.

(** With a non-negative fold-change threshold, a significant row has a
    non-zero fold change: it is either up- or down-regulated. *)
Lemma classify_cases (col : option (Row -> option Q)) (fdr lfc : Q) (r : Row) :
  (0 <= lfc)%Q →
  let v := classify col fdr lfc r in
  (negb (significant v) = true ∧ significant v && gt_opt (log2FoldChange (vrow v)) 0 = false ∧
   significant v && lt_opt (log2FoldChange (vrow v)) 0 = false ∧ direction v = NotSignificant) ∨
  (negb (significant v) = false ∧ significant v && gt_opt (log2FoldChange (vrow v)) 0 = true ∧
   significant v && lt_opt (log2FoldChange (vrow v)) 0 = false ∧ direction v = UpRegulated) ∨
  (negb (significant v) = false ∧ significant v && gt_opt (log2FoldChange (vrow v)) 0 = false ∧
   significant v && lt_opt (log2FoldChange (vrow v)) 0 = true ∧ direction v = DownRegulated).
Proof.
  intros Hl. cbv zeta. destruct col as [c|]; simpl; [|left; auto].
  destruct (lt_opt (c r) fdr && abs_gt_opt (log2FoldChange r) lfc) eqn:S; simpl; [|left; auto].
  apply andb_prop in S as [_ A].
  destruct (log2FoldChange r) as [q|]; simpl in *; [|discriminate].
  apply Qlt_bool_spec in A.
  destruct (Qle_bool q 0) eqn:E1, (Qle_bool 0 q) eqn:E2; simpl.
  - exfalso. apply Qle_bool_iff in E1, E2.
    rewrite Qabs_pos in A by exact E2. lra.
  - right; right; auto.
  - right; left; auto.
  - exfalso. apply not_true_iff_false in E1, E2. rewrite Qle_bool_iff in E1, E2. lra.
Qed.

Lemma filter_lengths3 {A} (f g h : A → bool) (l : list A) :
  Forall (λ x, (f x = true ∧ g x = false ∧ h x = false) ∨
               (f x = false ∧ g x = true ∧ h x = false) ∨
               (f x = false ∧ g x = false ∧ h x = true)) l →
  length (filter f l) + length (filter g l) + length (filter h l) = length l.
Proof.
  induction 1 as [|x l Hx _ IH]; [reflexivity|].
  rewrite !filter_cons.
  destruct Hx as [(F & G & H)|[(F & G & H)|(F & G & H)]]; rewrite F, G, H;
    repeat (first [rewrite decide_True by exact I | rewrite decide_False by (intros []) ]);
    simpl; lia.
Qed.

(** X8: with a non-negative fold-change threshold (the slider's range),
    every row of the volcano data is drawn in exactly one of the three
    traces (not significant, up-regulated, down-regulated), and each
    trace holds only rows of the matching direction. *)
Theorem volcano_traces_partition regex fp fdr lfc gs hb s s' d :
  (0 <= lfc)%Q →
  update_volcano_plot regex fp fdr lfc gs hb s = (inr (VolcanoPlot d), s') →
  let '(ns, up, down) := volcano_traces d in
  length ns + length up + length down = length d ∧
  Forall (λ v, direction v = NotSignificant) ns ∧
  Forall (λ v, direction v = UpRegulated) up ∧
  Forall (λ v, direction v = DownRegulated) down.
Proof.
  intros Hl H. apply update_volcano_plot_plot in H as (_ & l & _ & V).
  apply volcano_rows_some in V as (_ & _ & _ & rs & _ & ->).
  assert (Hc : Forall (λ v,
     (negb (significant v) = true ∧ significant v && gt_opt (log2FoldChange (vrow v)) 0 = false ∧
      significant v && lt_opt (log2FoldChange (vrow v)) 0 = false ∧ direction v = NotSignificant) ∨
     (negb (significant v) = false ∧ significant v && gt_opt (log2FoldChange (vrow v)) 0 = true ∧
      significant v && lt_opt (log2FoldChange (vrow v)) 0 = false ∧ direction v = UpRegulated) ∨
     (negb (significant v) = false ∧ significant v && gt_opt (log2FoldChange (vrow v)) 0 = false ∧
      significant v && lt_opt (log2FoldChange (vrow v)) 0 = true ∧ direction v = DownRegulated))
     (map (classify (significance_column (heap s' l)) fdr lfc) rs)).
  { apply Forall_forall. intros v Hv. apply list_elem_of_In, in_map_iff in Hv as (r & <- & _).
    apply classify_cases. exact Hl. }
  unfold volcano_traces. split; [|split; [|split]].
  - apply filter_lengths3. eapply Forall_impl; [exact Hc|].
    intros v [(A & B & C & _)|[(A & B & C & _)|(A & B & C & _)]]; auto 8.
  - apply Forall_forall. intros v Hv. apply list_elem_of_filter in Hv as [Hf Hv].
    apply Is_true_true in Hf.
    rewrite Forall_forall in Hc. destruct (Hc v Hv) as [(_ & _ & _ & D)|[(A & _)|(A & _)]];
      [exact D|congruence|congruence].
  - apply Forall_forall. intros v Hv. apply list_elem_of_filter in Hv as [Hf Hv].
    apply Is_true_true in Hf.
    rewrite Forall_forall in Hc. destruct (Hc v Hv) as [(_ & B & _)|[(_ & _ & _ & D)|(_ & B & _)]];
      [congruence|exact D|congruence].
  - apply Forall_forall. intros v Hv. apply list_elem_of_filter in Hv as [Hf Hv].
    apply Is_true_true in Hf.
    rewrite Forall_forall in Hc. destruct (Hc v Hv) as [(_ & _ & C & _)|[(_ & _ & C & _)|(_ & _ & _ & D)]];
      [congruence|congruence|exact D].
Qed.

Lemma volcano_traces_partition_witness :
  ∃ d s',
    (0 <= 1)%Q ∧
    update_volcano_plot match_nothing (Some "v.tsv"%string) (5 # 100) 1 None true
      (init_st volcano_disk) = (inr (VolcanoPlot d), s') ∧
    let '(ns, up, down) := volcano_traces d in
    length ns + length up + length down = length d ∧
    Forall (λ v, direction v = NotSignificant) ns ∧
    Forall (λ v, direction v = UpRegulated) up ∧
    Forall (λ v, direction v = DownRegulated) down.
Proof.
  eexists _, _.
  assert (H0 : (0 <= 1)%Q) by (vm_compute; discriminate).
  split; [exact H0|]. split; [vm_compute; reflexivity|].
  eapply (volcano_traces_partition match_nothing (Some "v.tsv"%string) (5 # 100) 1 None true
           (init_st volcano_disk) _ _ H0).
  vm_compute. reflexivity.
Defined.

Lemma volcano_sig_mask (fdr lfc : Q) (r : Row) :
  significant (classify (Some padj) fdr lfc r) = sig_mask padj fdr lfc r.
Proof.
  unfold sig_mask. simpl.
  destruct (padj r), (log2FoldChange r); simpl;
    repeat rewrite ?andb_true_r, ?andb_false_r; reflexivity.
Qed.

(** X9: without a gene search, the genes the volcano plot marks as
    significant (other than "nan") are exactly the DEGs [extract_degs]
    finds in the same file at the same thresholds, which the Venn tab
    counts; the two calls also leave the same state. *)
Theorem volcano_significant_are_degs regex fp fdr lfc hb s s' d :
  update_volcano_plot regex fp fdr lfc None hb s = (inr (VolcanoPlot d), s') →
  ∃ D, extract_degs (path_of fp) fdr lfc s = (inr D, s') ∧
       ∀ g, g ∈ D ↔ g ≠ "nan"%string ∧
                    ∃ v, In v d ∧ significant v = true ∧ gene_symbol (vrow v) = g.
Proof.
  intros H. apply update_volcano_plot_plot in H as (_ & l & L & V).
  apply volcano_rows_some in V as (_ & _ & Hq & rs & Hrs & ->).
  simpl in Hrs. injection Hrs as <-.
  exists (degs_of_table (heap s' l) fdr lfc). split.
  { unfold extract_degs, bind at 1. rewrite L. reflexivity. }
  intros g. unfold degs_of_table, degs_list, significance_column. rewrite Hq.
  rewrite elem_of_list_to_set, list_elem_of_filter.
  split.
  - intros [Hn Hg]. apply Is_true_true in Hn. apply negb_true_iff, String.eqb_neq in Hn.
    split; [exact Hn|].
    apply list_elem_of_In, in_map_iff in Hg as (r & <- & Hr).
    apply list_elem_of_In, list_elem_of_filter in Hr as [Hm Hr]. apply Is_true_true in Hm.
    exists (classify (Some padj) fdr lfc r). split; [|split; [rewrite volcano_sig_mask; exact Hm|reflexivity]].
    apply in_map. apply list_elem_of_In. exact Hr.
  - intros [Hn (v & Hv & Hs & Hg)]. split.
    + apply Is_true_true, negb_true_iff, String.eqb_neq. exact Hn.
    + apply in_map_iff in Hv as (r & <- & Hr).
      apply list_elem_of_In, in_map_iff. exists r. split; [exact Hg|].
      apply list_elem_of_In, list_elem_of_filter. split; [|apply list_elem_of_In; exact Hr].
      apply Is_true_true. rewrite <- volcano_sig_mask. exact Hs.
Qed.

Lemma volcano_significant_are_degs_witness :
  ∃ d s',
    update_volcano_plot match_nothing (Some "v.tsv"%string) (5 # 100) 1 None true
      (init_st volcano_disk) = (inr (VolcanoPlot d), s') ∧
    ∃ D, extract_degs "v.tsv" (5 # 100) 1 (init_st volcano_disk) = (inr D, s') ∧
       ∀ g, g ∈ D ↔ g ≠ "nan"%string ∧
                    ∃ v, In v d ∧ significant v = true ∧ gene_symbol (vrow v) = g.
Proof.
  eexists _, _. split; [vm_compute; reflexivity|].
  eapply (volcano_significant_are_degs match_nothing (Some "v.tsv"%string) (5 # 100) 1 true
            (init_st volcano_disk)).
  vm_compute. reflexivity.
Defined.



(* ------------------------------------------------------------------ *)
(** ** The scatter tab *)

Lemma merge_comparisons_frames (p1 p2 : string) (s : St) :
  merge_comparisons p1 p2 s =
  match merge_frames p1 p2 s with
  | (inl e, s') => (inl e, s')
  | (inr (df1, df2), s') => (inr (pd_merge_inner df1 df2), s')
  end.
Proof.
  unfold merge_comparisons, merge_frames, bind.
  destruct (load_deseq2_file p1 true s) as [[e|l1] s1]; [reflexivity|].
  destruct (load_deseq2_file p2 true s1) as [[e|l2] s2]; reflexivity.
Qed.

(** X11: with two different files selected and the label-count box
    empty ([None]), the scatter tab always shows the error panel: the
    test [n_labels > 0] raises [TypeError] (the volcano tab guards this
    case, the scatter tab does not). *)
Theorem scatter_empty_label_count regex fp1 fp2 sig_filter gene_search s :
  truthy fp1 = true → truthy fp2 = true → path_of fp1 ≠ path_of fp2 →
  fst (update_scatter_plot regex fp1 fp2 sig_filter None gene_search s) = inr ScatterError.
Proof.
  intros H1 H2 H3. unfold update_scatter_plot. rewrite H1, H2. simpl.
  apply String.eqb_neq in H3. rewrite H3.
  destruct (merge_frames (path_of fp1) (path_of fp2) s) as [[e|[df1 df2]] s']; [reflexivity|].
  unfold scatter_rows. cbv zeta.
  destruct (gene_search_rows _ _ _ _); reflexivity.
Qed.

Lemma scatter_empty_label_count_witness :
  truthy (Some "v.tsv"%string) = true ∧ truthy (Some "a.tsv"%string) = true ∧
  path_of (Some "v.tsv"%string) ≠ path_of (Some "a.tsv"%string) ∧
  fst (update_scatter_plot match_nothing (Some "v.tsv"%string) (Some "a.tsv"%string) [] None None
         (init_st volcano_disk)) = inr ScatterError.
Proof.
  assert (H1 : truthy (Some "v.tsv"%string) = true) by reflexivity.
  assert (H2 : truthy (Some "a.tsv"%string) = true) by reflexivity.
  assert (H3 : path_of (Some "v.tsv"%string) ≠ path_of (Some "a.tsv"%string)) by discriminate.
  split; [exact H1|]. split; [exact H2|]. split; [exact H3|].
  exact (scatter_empty_label_count match_nothing _ _ [] None _ H1 H2 H3).
Defined.

Lemma sig_only_checked (sf : list string) :
  existsb (String.eqb "sig-only") sf = true ↔ "sig-only"%string ∈ sf.
Proof.
  rewrite existsb_exists, list_elem_of_In. split.
  - intros (x & Hx & E). apply String.eqb_eq in E. subst x. exact Hx.
  - intros H. exists "sig-only"%string. split; [exact H|]. apply String.eqb_refl.
Qed.

(** X12: without a gene search, the scatter data are the rows of
    [merge_comparisons] of the two files (same order, same resulting
    state). When "sig-only" is checked and both files have a [padj]
    column, exactly the rows with [padj] below 0.05 in either file are
    kept; otherwise (switch off, or a file without [padj]) every merged
    row is kept. *)
Theorem scatter_sig_filter regex fp1 fp2 sf k s s' d :
  update_scatter_plot regex fp1 fp2 sf (Some k) None s = (inr (ScatterPlot d), s') →
  ∃ df1 df2,
    merge_comparisons (path_of fp1) (path_of fp2) s = (inr (pd_merge_inner df1 df2), s') ∧
    ("sig-only"%string ∈ sf → has_padj df1 && has_padj df2 = true →
       ∀ rr, rr ∈ d ↔ rr ∈ pd_merge_inner df1 df2 ∧
             ((∃ q, padj rr.1 = Some q ∧ (q < 0.05)%Q) ∨ (∃ q, padj rr.2 = Some q ∧ (q < 0.05)%Q))) ∧
    (("sig-only"%string ∉ sf ∨ has_padj df1 && has_padj df2 = false) → d = pd_merge_inner df1 df2).
Proof.
  unfold update_scatter_plot.
  destruct (negb (truthy fp1) || negb (truthy fp2)); [unfold ret; discriminate|].
  destruct (String.eqb (path_of fp1) (path_of fp2)); [unfold ret; discriminate|].
  rewrite merge_comparisons_frames.
  destruct (merge_frames (path_of fp1) (path_of fp2) s) as [[e|[df1 df2]] s1]; [discriminate|].
  unfold scatter_rows.
  destruct (existsb (String.eqb "sig-only") sf) eqn:Hsf; simpl;
    intros H; injection H as Hd <-; exists df1, df2; (split; [reflexivity|]).
  2:{ simpl in Hd. subst d. split; [|reflexivity].
      intros Hin. apply sig_only_checked in Hin. congruence. }
  apply sig_only_checked in Hsf.
  destruct (has_padj df1 && has_padj df2); simpl in Hd; subst d.
  - split; [|intros [Hn|Hn]; [contradiction|discriminate]].
    intros _ _ [r1 r2]. rewrite list_elem_of_filter. simpl.
    split.
    + intros [Hf Hin]. apply Is_true_true, orb_true_iff in Hf. split; [exact Hin|].
      destruct Hf as [Hf|Hf]; [left|right];
        match type of Hf with lt_opt ?x _ = true => destruct x as [q|] end; try discriminate;
        exists q; split; auto; apply Qlt_bool_spec; exact Hf.
    + intros [Hin Hq]. split; [|exact Hin]. apply Is_true_true, orb_true_iff.
      destruct Hq as [(q & Hq & Hl)|(q & Hq & Hl)]; [left|right]; rewrite Hq;
        apply Qlt_bool_spec; exact Hl.
  - split; [intros _ Hp; discriminate|]. reflexivity.
Qed.

Lemma scatter_sig_filter_witness :
  ∃ d s',
    update_scatter_plot match_nothing (Some "v.tsv"%string) (Some "a.tsv"%string)
      ["sig-only"%string] (Some 3%Z) None (init_st volcano_disk) = (inr (ScatterPlot d), s') ∧
    ∃ df1 df2,
      merge_comparisons "v.tsv" "a.tsv" (init_st volcano_disk) = (inr (pd_merge_inner df1 df2), s') ∧
      ("sig-only"%string ∈ ["sig-only"%string] → has_padj df1 && has_padj df2 = true →
         ∀ rr, rr ∈ d ↔ rr ∈ pd_merge_inner df1 df2 ∧
               ((∃ q, padj rr.1 = Some q ∧ (q < 0.05)%Q) ∨ (∃ q, padj rr.2 = Some q ∧ (q < 0.05)%Q))) ∧
      (("sig-only"%string ∉ ["sig-only"%string] ∨ has_padj df1 && has_padj df2 = false) →
         d = pd_merge_inner df1 df2).
Proof.
  eexists _, _. split; [vm_compute; reflexivity|].
  eapply (scatter_sig_filter match_nothing (Some "v.tsv"%string) (Some "a.tsv"%string)
            ["sig-only"%string] 3%Z (init_st volcano_disk)).
  vm_compute. reflexivity.
Defined.

(* ------------------------------------------------------------------ *)
(** ** Exporting the Venn overlaps *)

(** Disjointness of set-algebra terms over named sets. *)
Ltac gset_disj :=
  let x := fresh "x" in
  let H1 := fresh "H" in
  let H2 := fresh "H" in
  intros x H1 H2;
  repeat rewrite ?elem_of_union, ?elem_of_difference, ?elem_of_intersection in H1;
  repeat rewrite ?elem_of_union, ?elem_of_difference, ?elem_of_intersection in H2;
  tauto.

Lemma gset_size_elements (X : gset string) : length (elements X) = size X.
Proof. reflexivity. Qed.

(** Splits the size of a union of pairwise disjoint terms. *)
Ltac size_unions :=
  repeat match goal with
         | |- context [size (?X ∪ ?Y)] => rewrite (size_union X Y) by gset_disj
         end;
  rewrite ?gset_size_elements.

Local Open Scope string_scope.

(** X13: exporting the data a two-way diagram stored gives three rows
    (only the first file, the overlap, only the second file) whose gene
    counts are the sizes of the three regions and add up to the number of
    distinct DEGs of the two files. *)
Theorem export_venn2_counts (degs1 degs2 : gset string) (fp1 fp2 : string) (fp3 : option string) :
  ∃ rows,
    export_venn_overlaps (venn_store (Venn2 (overlap2 degs1 degs2))) 2 (Some fp1) (Some fp2) fp3
      = Some rows ∧
    map Category rows = ["Only " ++ get_file_display_name fp1;
                         "Overlap (" ++ get_file_display_name fp1 ++ " & "
                           ++ get_file_display_name fp2 ++ ")";
                         "Only " ++ get_file_display_name fp2] ∧
    map Gene_Count rows = [size (degs1 ∖ degs2); size (degs1 ∩ degs2); size (degs2 ∖ degs1)] ∧
    sum_list (map Gene_Count rows) = size (degs1 ∪ degs2).
Proof.
  unfold export_venn_overlaps, venn_store, overlap2. simpl.
  rewrite bool_decide_eq_false_2 by apply insert_non_empty. simpl.
  eexists. split; [reflexivity|]. simpl. split; [reflexivity|]. split; [reflexivity|].
  assert (E : degs1 ∪ degs2 = (degs1 ∖ degs2) ∪ ((degs1 ∩ degs2) ∪ (degs2 ∖ degs1)))
    by gset_ext3 degs1 degs2 degs2.
  rewrite E.
  size_unions. lia.
Qed.

(** X14: exporting the data a three-way diagram stored gives seven rows
    whose gene counts are the sizes of the seven regions and add up to
    the number of distinct DEGs of the three files. *)
Theorem export_venn3_counts (degs1 degs2 degs3 : gset string) (fp1 fp2 fp3 : string) :
  ∃ rows,
    export_venn_overlaps (venn_store (Venn3 (overlap3 degs1 degs2 degs3))) 3
      (Some fp1) (Some fp2) (Some fp3) = Some rows ∧
    map Gene_Count rows =
      [size (degs1 ∖ degs2 ∖ degs3); size (degs2 ∖ degs1 ∖ degs3); size (degs3 ∖ degs1 ∖ degs2);
       size ((degs1 ∩ degs2) ∖ degs3); size ((degs1 ∩ degs3) ∖ degs2);
       size ((degs2 ∩ degs3) ∖ degs1); size (degs1 ∩ degs2 ∩ degs3)] ∧
    sum_list (map Gene_Count rows) = size (degs1 ∪ degs2 ∪ degs3).
Proof.
  unfold export_venn_overlaps, venn_store, overlap3. simpl.
  rewrite bool_decide_eq_false_2 by apply insert_non_empty. simpl.
  eexists. split; [reflexivity|]. simpl. split; [reflexivity|].
  assert (E : degs1 ∪ degs2 ∪ degs3 =
             (degs1 ∖ degs2 ∖ degs3) ∪ ((degs2 ∖ degs1 ∖ degs3) ∪ ((degs3 ∖ degs1 ∖ degs2) ∪
              (((degs1 ∩ degs2) ∖ degs3) ∪ (((degs1 ∩ degs3) ∖ degs2) ∪
              (((degs2 ∩ degs3) ∖ degs1) ∪ (degs1 ∩ degs2 ∩ degs3)))))))
    by gset_ext3 degs1 degs2 degs3.
  rewrite E.
  size_unions. lia.
Qed.

(** X15: the export fails silently (no file) when the stored data do not
    match the current number of comparisons (data of a two-way diagram
    exported as three-way, or the reverse), or when the third comparison
    is not selected for a three-way export. *)
Theorem export_venn_mismatch (degs1 degs2 degs3 : gset string) (fp1 fp2 fp3 : option string) :
  export_venn_overlaps (venn_store (Venn2 (overlap2 degs1 degs2))) 3 fp1 fp2 fp3 = None ∧
  export_venn_overlaps (venn_store (Venn3 (overlap3 degs1 degs2 degs3))) 2 fp1 fp2 fp3 = None ∧
  export_venn_overlaps (venn_store (Venn3 (overlap3 degs1 degs2 degs3))) 3 fp1 fp2 None = None.
Proof.
  unfold export_venn_overlaps, venn_store. simpl.
  rewrite !bool_decide_eq_false_2 by apply insert_non_empty. simpl.
  split; [|split]; destruct fp1, fp2; try destruct fp3; reflexivity.
Qed.

Local Close Scope string_scope.

Local Open Scope string_scope.

Lemma string_app_assoc (a b c : string) : a ++ b ++ c = (a ++ b) ++ c.
Proof. induction a as [|x a IH]; [reflexivity|]. rewrite !append_cons, IH. reflexivity. Qed.

Lemma substring_0_app (p x : string) (n : nat) :
  (String.length p ≤ n)%nat → substring 0 n (p ++ x) = p ++ substring 0 (n - String.length p) x.
Proof.
  revert n. induction p as [|c p IH]; intros n H.
  - rewrite append_nil_l. simpl. rewrite Nat.sub_0_r. reflexivity.
  - destruct n as [|n]; simpl in H; [lia|].
    rewrite append_cons. simpl. rewrite IH by lia. reflexivity.
Qed.

Lemma length_fmt_date (d : string) : (String.length (fmt_date d) ≤ 10)%nat.
Proof.
  unfold fmt_date, slice. rewrite !length_append.
  pose proof (length_substring_le 0 (4 - 0) d).
  pose proof (length_substring_le 4 (6 - 4) d).
  pose proof (length_substring_le 6 (8 - 6) d).
  simpl in *. lia.
Qed.

(** A file whose stem, once "_results" is removed, starts with eight
    digits and an underscore is shown with its formatted date first,
    also when the rest of the name is truncated. *)
Theorem clean_display_name_date_prefix (stem d rest : string) :
  str_replace "_results" "" stem = d ++ "_" ++ rest →
  all_digits d = true → String.length d = 8%nat →
  ∃ tail, clean_display_name stem = fmt_date d ++ ": " ++ tail.
Proof.
  intros Hr Hd Hl.
  unfold clean_display_name.
  assert (Hn : (if str_contains "_results" stem then str_replace "_results" "" stem else stem)
               = str_replace "_results" "" stem).
  { destruct (str_contains "_results" stem) eqn:E; [reflexivity|].
    unfold str_contains in E. destruct (index 0 "_results" stem) eqn:I; [discriminate|].
    symmetry. apply str_replace_fuel_absent. exact I. }
  rewrite Hn, Hr. clear Hn Hr.
  change ("_" ++ rest) with (String "_" rest).
  unfold split1. rewrite (split_at_char_digits d rest Hd).
  assert (HD : isdigit d && Nat.eqb (String.length d) 8 = true).
  { unfold isdigit. rewrite Hd, Hl.
    destruct d; [discriminate Hl|]. reflexivity. }
  rewrite HD.
  assert (Hne : negb (String.eqb d "") = true).
  { destruct d; [discriminate Hl|]. reflexivity. }
  cbv zeta iota. rewrite Hne. fold (fmt_date d).
  generalize (str_replace "_" " " (str_replace "_vs_" " vs " rest)). intros x.
  rewrite (string_app_assoc (fmt_date d) ": " x).
  destruct (Nat.ltb 55 _).
  - unfold slice. rewrite Nat.sub_0_r.
    assert (Hp : (String.length (fmt_date d ++ ": ") ≤ 52)%nat).
    { rewrite length_append. pose proof (length_fmt_date d). simpl. lia. }
    rewrite (substring_0_app _ _ _ Hp), <- !string_app_assoc.
    eexists. reflexivity.
  - rewrite <- string_app_assoc. eexists. reflexivity.
Qed.

Lemma clean_display_name_date_prefix_witness :
  str_replace "_results" "" "20240101_a_long_treated_vs_control_comparison_results_with_many_words"
    = "20240101" ++ "_" ++ "a_long_treated_vs_control_comparison_with_many_words" ∧
  all_digits "20240101" = true ∧ String.length "20240101" = 8%nat ∧
  ∃ tail, clean_display_name "20240101_a_long_treated_vs_control_comparison_results_with_many_words"
          = fmt_date "20240101" ++ ": " ++ tail.
Proof.
  split; [vm_compute; reflexivity|]. split; [reflexivity|]. split; [reflexivity|].
  apply (clean_display_name_date_prefix _ "20240101" "a_long_treated_vs_control_comparison_with_many_words");
    [vm_compute; reflexivity | reflexivity | reflexivity].
Defined.

Local Close Scope string_scope.
